(** * Requirement resolution and package-manifest storage

    A shallow embedding of two files of the operator lifecycle manager:

    - [pkg/controller/operators/olm/requirements.go]: the requirement
      resolver ([requirementStatus], [isGVKRegistered], [permissionStatus]);
    - [pkg/package-server/storage/packagemanifest/reststorage.go]: the
      REST storage of package manifests ([List], [Get], [Watch], [nameFor],
      [matches]).

    Cluster clients, listers and decoders are collaborators of the code; they
    appear here as fields of records of functions, so that every statement
    quantifies over all possible clusters. *)

From stdpp Require Import gmap strings list fin_maps.

Local Open Scope string_scope.
Local Open Scope list_scope.

(** ** Go values shared by both packages *)

(** Go's [error] interface, with the concrete errors the two files build. *)
Inductive error : Type :=
  | Errorf (msg : string)
  | GroupVersionKindNotFoundError (group version kind : string)
  | NewNotFound (groupResource name : string).

(** A Go call returning [(value, error)]: the value is only read when the
    error is nil. *)
Inductive result (A : Type) : Type :=
  | Ok (a : A)
  | Err (e : error).
Arguments Ok {A} a.
Arguments Err {A} e.

(** The outcome of a Go function body that may dereference a nil pointer or
    index past the end of a slice. *)
Inductive outcome (A : Type) : Type :=
  | Panic
  | Return (a : A).
Arguments Panic {A}.
Arguments Return {A} a.

(** [metav1.NamespaceAll] and [v1.NamespaceAll]. *)
Definition NamespaceAll : string := "".

(** [rbacv1beta1.PolicyRule]. *)
Record PolicyRule : Type := mkPolicyRule {
  Verbs : list string;
  APIGroups : list string;
  Resources : list string;
  ResourceNames : list string;
  NonResourceURLs : list string
}.

(* ===================================================================== *)
(** ** Package [olm]: requirements.go *)
(* ===================================================================== *)

Module Olm.

(** Modelled from the spec: the type declarations of package [v1alpha1]
    (status reasons, [DependentStatus], [RequirementStatus]) are not part of
    the two files; the spec's data model names their fields and values. In Go
    a status reason is a string type, whose zero value is the empty string. *)
Definition StatusReason : Type := string.

(** Modelled from the spec: the three values of a requirement's status. *)
Definition RequirementStatusReasonPresent : StatusReason := "Present".
Definition RequirementStatusReasonNotPresent : StatusReason := "NotPresent".
Definition RequirementStatusReasonPresentNotSatisfied : StatusReason :=
  "PresentNotSatisfied".

(** Modelled from the spec: the two values of a dependent's status. *)
Definition DependentStatusReasonSatisfied : StatusReason := "Satisfied".
Definition DependentStatusReasonNotSatisfied : StatusReason := "NotSatisfied".

(** Modelled from the spec: [v1alpha1.DependentStatus], the outcome of one
    access rule. *)
Record DependentStatus : Type := mkDependentStatus {
  dep_Group : string;
  dep_Version : string;
  dep_Kind : string;
  dep_Status : StatusReason;
  dep_Message : string
}.

(** Modelled from the spec: [v1alpha1.RequirementStatus], the state of one
    declared requirement. *)
Record RequirementStatus : Type := mkRequirementStatus {
  req_Group : string;
  req_Version : string;
  req_Kind : string;
  req_Name : string;
  req_Status : StatusReason;
  req_UUID : string;
  req_Dependents : list DependentStatus
}.

(** The zero value [v1alpha1.RequirementStatus{}]. *)
Definition zeroRequirementStatus : RequirementStatus :=
  mkRequirementStatus "" "" "" "" "" "" [].

#[global] Instance DependentStatus_eq_dec : EqDecision DependentStatus.
Proof. solve_decision. Defined.

#[global] Instance RequirementStatus_eq_dec : EqDecision RequirementStatus.
Proof. solve_decision. Defined.

(** The entries of a status sequence other than zero values. *)
Definition nonzero (statuses : list RequirementStatus) : list RequirementStatus :=
  filter (fun st => st <> zeroRequirementStatus) statuses.

(** Field assignments [status.Status = s], [status.UUID = u] and
    [status.Dependents = append(status.Dependents, d)]. *)
Definition set_Status (s : StatusReason) (st : RequirementStatus) : RequirementStatus :=
  mkRequirementStatus (req_Group st) (req_Version st) (req_Kind st) (req_Name st)
    s (req_UUID st) (req_Dependents st).

Definition set_UUID (u : string) (st : RequirementStatus) : RequirementStatus :=
  mkRequirementStatus (req_Group st) (req_Version st) (req_Kind st) (req_Name st)
    (req_Status st) u (req_Dependents st).

Definition append_Dependent (d : DependentStatus) (st : RequirementStatus) : RequirementStatus :=
  mkRequirementStatus (req_Group st) (req_Version st) (req_Kind st) (req_Name st)
    (req_Status st) (req_UUID st) (req_Dependents st ++ [d]).

Definition set_dep_Status (s : StatusReason) (d : DependentStatus) : DependentStatus :=
  mkDependentStatus (dep_Group d) (dep_Version d) (dep_Kind d) s (dep_Message d).

Definition set_dep_Message (m : string) (d : DependentStatus) : DependentStatus :=
  mkDependentStatus (dep_Group d) (dep_Version d) (dep_Kind d) (dep_Status d) m.

(** *** The workload (a ClusterServiceVersion) and its install strategy *)

Record CRDDescription : Type := mkCRDDescription {
  crd_Name : string
}.

Record APIServiceDescription : Type := mkAPIServiceDescription {
  api_Name : string;
  api_Version : string;
  api_Kind : string
}.

(** [install.StrategyDeploymentPermissions]: one identity grant. *)
Record StrategyDeploymentPermissions : Type := mkPermissions {
  ServiceAccountName : string;
  Rules : list PolicyRule
}.

Record StrategyDetailsDeployment : Type := mkStrategyDetailsDeployment {
  Permissions : list StrategyDeploymentPermissions;
  ClusterPermissions : list StrategyDeploymentPermissions
}.

(** [install.Strategy] is an interface; the resolver only tells the
    deployment implementation from every other one. *)
Inductive Strategy : Type :=
  | StrategyDeployment (d : StrategyDetailsDeployment)
  | StrategyOther (strategyName : string).

(** [v1alpha1.NamedInstallStrategy]: the raw, still encoded strategy. *)
Record NamedInstallStrategy : Type := mkNamedInstallStrategy {
  StrategyName : string;
  StrategySpecRaw : string
}.

(** The parts of a ClusterServiceVersion the resolver reads. The two
    description lists are what [GetAllCRDDescriptions] and
    [GetAllAPIServiceDescriptions] return. *)
Record ClusterServiceVersion : Type := mkCSV {
  GetName : string;
  GetNamespace : string;
  GetAllCRDDescriptions : list CRDDescription;
  GetAllAPIServiceDescriptions : list APIServiceDescription;
  InstallStrategy : NamedInstallStrategy
}.

(** *** Cluster objects *)

Record CustomResourceDefinition : Type := mkCRD {
  crd_GetUID : string
}.

Record APIService : Type := mkAPIService {
  apiservice_GetName : string;
  apiservice_GetUID : string
}.

Record ServiceAccount : Type := mkServiceAccount {
  sa_Namespace : string;
  sa_Name : string
}.

Record APIResource : Type := mkAPIResource {
  res_Kind : string
}.

Record APIResourceList : Type := mkAPIResourceList {
  GroupVersion : string;
  APIResources : list APIResource
}.

(** [metav1.GroupVersion.String]. *)
Definition GroupVersion_String (group version : string) : string :=
  if bool_decide (group = "") then
    (if bool_decide (version = "") then "" else version)
  else group +:+ "/" +:+ version.

(** *** The operator and the collaborators of package [olm]

    [a *Operator] reaches the cluster through [a.OpClient] and its listers.
    [RuleSatisfied] is the method of the rule checker that
    [install.NewCSVRuleChecker] builds from the operator's four listers and
    the workload. [isAPIServiceAvailable] is a method of the operator that
    lives in another file. An operator is the cluster at one moment: a
    lookup is a function of its arguments. A cluster that changes between
    two lookups is two operators (see [liveGrants]). *)
Record Operator : Type := mkOperator {
  CustomResourceDefinitions_Get : string -> result CustomResourceDefinition;
  ServerResources : result (list APIResourceList);
  APIServices_Get : string -> result APIService;
  isAPIServiceAvailable : APIService -> bool;
  GetServiceAccount : string -> string -> result ServiceAccount;
  RuleSatisfied :
    ClusterServiceVersion -> ServiceAccount -> string -> PolicyRule -> bool * option error
}.

(** What the Go runtime and the packages [install] and [encoding/json]
    contribute: the strategy decoder, the JSON encoder of a rule, and the
    order in which a [range] over the map [statusesSet] visits its entries.
    Go leaves that order unspecified, so it is a parameter, of which only
    [mapRange_perm] is known: a range visits every entry exactly once. *)
Record Runtime : Type := mkRuntime {
  UnmarshalStrategy : NamedInstallStrategy -> result Strategy;
  json_Marshal : PolicyRule -> result string;
  mapRange : gmap string RequirementStatus -> list (string * RequirementStatus);
  mapRange_perm : forall m, mapRange m ≡ₚ map_to_list m
}.

Section Resolver.

Variable rt : Runtime.
Variable a : Operator.

(** *** [isGVKRegistered] *)

Definition isGVKRegistered (group version kind : string) : option error :=
  match ServerResources a with
  | Err err => Some err
  | Ok groups =>
      if existsb
           (fun g =>
              bool_decide (GroupVersion g = GroupVersion_String group version)
              && existsb (fun r => bool_decide (res_Kind r = kind)) (APIResources g))
           groups
      then None
      else Some (GroupVersionKindNotFoundError group version kind)
  end.

(** *** [requirementStatus], first loop: type definitions *)

Definition crdStep (acc : bool * list RequirementStatus) (r : CRDDescription)
  : bool * list RequirementStatus :=
  let '(met, statuses) := acc in
  let status :=
    mkRequirementStatus "apiextensions.k8s.io" "v1beta1" "CustomResourceDefinition"
      (crd_Name r) "" "" [] in
  match CustomResourceDefinitions_Get a (crd_Name r) with
  | Err _ =>
      (false, statuses ++ [set_Status RequirementStatusReasonNotPresent status])
  | Ok crd =>
      (met, statuses ++
            [set_UUID (crd_GetUID crd) (set_Status RequirementStatusReasonPresent status)])
  end.

(** *** [requirementStatus], second loop: service extensions *)

Definition apiStep (acc : bool * list RequirementStatus) (r : APIServiceDescription)
  : bool * list RequirementStatus :=
  let '(met, statuses) := acc in
  let apiName := api_Version r +:+ "." +:+ api_Name r in
  let status :=
    mkRequirementStatus "apiregistration.k8s.io" "v1" "APIService" apiName "" "" [] in
  match isGVKRegistered (api_Name r) (api_Version r) (api_Kind r) with
  | Some _ => (false, statuses ++ [set_Status "NotPresent" status])
  | None =>
      match APIServices_Get a apiName with
      | Err _ => (false, statuses ++ [set_Status "NotPresent" status])
      | Ok apiService =>
          if negb (isAPIServiceAvailable a apiService)
          then (false, statuses ++ [set_Status "NotPresent" status])
          else (met, statuses ++
                     [set_UUID (apiservice_GetUID apiService) (set_Status "Present" status)])
      end
  end.

(** *** [permissionStatus] *)

Section Permissions.

Variable csv : ClusterServiceVersion.

(** The body of the loop over [perm.Rules]; its state is the status under
    construction and the captured variable [met]. *)
Definition ruleStep (sa : ServiceAccount) (namespace : string)
    (acc : RequirementStatus * bool) (rule : PolicyRule) : RequirementStatus * bool :=
  let '(status, met) := acc in
  let dependent :=
    mkDependentStatus "rbac.authorization.k8s.io" "v1beta1" "PolicyRule" "" "" in
  match json_Marshal rt rule with
  | Err _ =>
      let dependent := set_dep_Status DependentStatusReasonNotSatisfied dependent in
      let dependent := set_dep_Message "rule unmarshallable" dependent in
      (append_Dependent dependent status, met)
  | Ok marshalled =>
      let dependent := set_dep_Message ("rule raw:" +:+ marshalled) dependent in
      let '(satisfied, err) := RuleSatisfied a csv sa namespace rule in
      if bool_decide (err <> None) || negb satisfied
      then
        let dependent := set_dep_Status DependentStatusReasonNotSatisfied dependent in
        let status := set_Status RequirementStatusReasonPresentNotSatisfied status in
        (append_Dependent dependent status, false)
      else
        let dependent := set_dep_Status DependentStatusReasonSatisfied dependent in
        (append_Dependent dependent status, met)
  end.

(** The state of the closure [checkPermissions]: the map [statusesSet] and
    the captured variable [met]. *)
Definition permState : Type := (gmap string RequirementStatus * bool)%type.

(** The body of the loop over [permissions]. *)
Definition permStep (namespace : string) (acc : permState)
    (perm : StrategyDeploymentPermissions) : permState :=
  let '(statusesSet, met) := acc in
  let saName := ServiceAccountName perm in
  let status :=
    match statusesSet !! saName with
    | None =>
        mkRequirementStatus "" "v1" "ServiceAccount" saName
          RequirementStatusReasonPresent "" []
    | Some stored => stored
    end in
  match GetServiceAccount a (GetNamespace csv) (ServiceAccountName perm) with
  | Err _ =>
      (<[saName := set_Status RequirementStatusReasonNotPresent status]> statusesSet, false)
  | Ok sa =>
      let '(status, met) := fold_left (ruleStep sa namespace) (Rules perm) (status, met) in
      (<[saName := status]> statusesSet, met)
  end.

Definition checkPermissions (permissions : list StrategyDeploymentPermissions)
    (namespace : string) (acc : permState) : permState :=
  fold_left (permStep namespace) permissions acc.

(** [statuses := make([]RequirementStatus, len(statusesSet))] followed by
    one [append] per entry of the map. *)
Definition collectStatuses (statusesSet : gmap string RequirementStatus)
  : list RequirementStatus :=
  fold_left (fun statuses kv => statuses ++ [kv.2]) (mapRange rt statusesSet)
    (replicate (size statusesSet) zeroRequirementStatus).

Definition permissionStatus : bool * list RequirementStatus :=
  match UnmarshalStrategy rt (InstallStrategy csv) with
  | Err _ => (false, [])
  | Ok strategy =>
      match strategy with
      | StrategyOther _ => (false, [])
      | StrategyDeployment strategyDetailsDeployment =>
          let acc := (∅, true) in
          let acc :=
            checkPermissions (Permissions strategyDetailsDeployment) (GetNamespace csv) acc in
          let acc :=
            checkPermissions (ClusterPermissions strategyDetailsDeployment) NamespaceAll acc in
          (acc.2, collectStatuses acc.1)
      end
  end.

End Permissions.

(** *** [requirementStatus] *)

Definition requirementStatus (csv : ClusterServiceVersion) : bool * list RequirementStatus :=
  let acc := (true, []) in
  let acc := fold_left crdStep (GetAllCRDDescriptions csv) acc in
  let '(met, statuses) := fold_left apiStep (GetAllAPIServiceDescriptions csv) acc in
  let '(permissionsMet, permissionStatuses) := permissionStatus csv in
  (met && permissionsMet, statuses ++ permissionStatuses).

End Resolver.

(** *** What the loops compute, entry by entry

    The definitions below are not code of the resolver: they name the status
    each declared requirement ends up with, so that the results of the loops
    can be stated. *)

Section Meaning.

Variable rt : Runtime.
Variable a : Operator.

Definition crdPresent (r : CRDDescription) : bool :=
  match CustomResourceDefinitions_Get a (crd_Name r) with
  | Ok _ => true
  | Err _ => false
  end.

Definition crdStatus (r : CRDDescription) : RequirementStatus :=
  match CustomResourceDefinitions_Get a (crd_Name r) with
  | Ok crd =>
      mkRequirementStatus "apiextensions.k8s.io" "v1beta1" "CustomResourceDefinition"
        (crd_Name r) "Present" (crd_GetUID crd) []
  | Err _ =>
      mkRequirementStatus "apiextensions.k8s.io" "v1beta1" "CustomResourceDefinition"
        (crd_Name r) "NotPresent" "" []
  end.

Definition apiAvailable (r : APIServiceDescription) : option APIService :=
  match isGVKRegistered a (api_Name r) (api_Version r) (api_Kind r) with
  | Some _ => None
  | None =>
      match APIServices_Get a (api_Version r +:+ "." +:+ api_Name r) with
      | Err _ => None
      | Ok apiService =>
          if isAPIServiceAvailable a apiService then Some apiService else None
      end
  end.

Definition apiPresent (r : APIServiceDescription) : bool :=
  bool_decide (apiAvailable r <> None).

Definition apiStatus (r : APIServiceDescription) : RequirementStatus :=
  match apiAvailable r with
  | Some apiService =>
      mkRequirementStatus "apiregistration.k8s.io" "v1" "APIService"
        (api_Version r +:+ "." +:+ api_Name r) "Present" (apiservice_GetUID apiService) []
  | None =>
      mkRequirementStatus "apiregistration.k8s.io" "v1" "APIService"
        (api_Version r +:+ "." +:+ api_Name r) "NotPresent" "" []
  end.

Variable csv : ClusterServiceVersion.

(** An identity grant together with the namespace its rules are checked in. *)
Definition grant : Type := (StrategyDeploymentPermissions * string)%type.

Definition grantName (g : grant) : string := ServiceAccountName g.1.

(** One evaluation pass: the namespaced grants, checked in the workload's
    namespace, then the cluster-wide grants, checked in all namespaces. *)
Definition passGrants (d : StrategyDetailsDeployment) : list grant :=
  map (fun perm => (perm, GetNamespace csv)) (Permissions d)
  ++ map (fun perm => (perm, NamespaceAll)) (ClusterPermissions d).

Definition runGrants (gs : list grant) (acc : permState) : permState :=
  fold_left (fun acc g => permStep rt a csv g.2 acc g.1) gs acc.

(** The identity grants the resolver finds in the workload: those of its
    deployment strategy, none when the strategy does not decode to one. *)
Definition declaredGrants : list grant :=
  match UnmarshalStrategy rt (InstallStrategy csv) with
  | Ok (StrategyDeployment d) => passGrants d
  | _ => []
  end.

(** Every rule of the grants can be encoded as JSON. *)
Definition serialisable (gs : list grant) : Prop :=
  forall g rule, g ∈ gs -> rule ∈ Rules g.1 -> exists s, json_Marshal rt rule = Ok s.

(** The loop of [checkPermissions] when the cluster changes under it: every
    grant is checked against the cluster as it is at the time of its
    lookups, an operator of its own. With one and the same operator
    throughout, this is [runGrants]. *)
Definition liveGrants (calls : list (Operator * grant)) (acc : permState) : permState :=
  fold_left (fun acc c => permStep rt c.1 csv c.2.2 acc c.2.1) calls acc.

(** The outcome of one rule: the dependent it adds, and whether it leaves
    [met] and the parent status alone. *)
Definition ruleDependent (sa : ServiceAccount) (nr : string * PolicyRule) : DependentStatus :=
  match json_Marshal rt nr.2 with
  | Err _ =>
      mkDependentStatus "rbac.authorization.k8s.io" "v1beta1" "PolicyRule"
        "NotSatisfied" "rule unmarshallable"
  | Ok marshalled =>
      mkDependentStatus "rbac.authorization.k8s.io" "v1beta1" "PolicyRule"
        (match RuleSatisfied a csv sa nr.1 nr.2 with
         | (true, None) => "Satisfied"
         | _ => "NotSatisfied"
         end)
        ("rule raw:" +:+ marshalled)
  end.

Definition ruleOk (sa : ServiceAccount) (nr : string * PolicyRule) : bool :=
  match json_Marshal rt nr.2 with
  | Err _ => true
  | Ok _ =>
      match RuleSatisfied a csv sa nr.1 nr.2 with
      | (true, None) => true
      | _ => false
      end
  end.

(** What the loop over [perm.Rules] leaves in [status] and [met]. *)
Definition afterRules (sa : ServiceAccount) (nrs : list (string * PolicyRule))
    (status : RequirementStatus) : RequirementStatus :=
  mkRequirementStatus (req_Group status) (req_Version status) (req_Kind status)
    (req_Name status)
    (if forallb (ruleOk sa) nrs then req_Status status
     else RequirementStatusReasonPresentNotSatisfied)
    (req_UUID status)
    (req_Dependents status ++ map (ruleDependent sa) nrs).

(** The status a grant starts from: the stored one, or a fresh Present one. *)
Definition startStatus (statusesSet : gmap string RequirementStatus) (saName : string)
  : RequirementStatus :=
  match statusesSet !! saName with
  | None =>
      mkRequirementStatus "" "v1" "ServiceAccount" saName
        RequirementStatusReasonPresent "" []
  | Some stored => stored
  end.

(** The rules granted to identity [k], each with the namespace it is checked
    in, in encounter order. *)
Definition grantRules (gs : list grant) (k : string) : list (string * PolicyRule) :=
  flat_map
    (fun g : grant =>
       if bool_decide (grantName g = k) then map (pair g.2) (Rules g.1) else [])
    gs.

(** The status of identity [k] after the grants [gs]. *)
Definition identityStatus (gs : list grant) (k : string) : RequirementStatus :=
  match GetServiceAccount a (GetNamespace csv) k with
  | Err _ => mkRequirementStatus "" "v1" "ServiceAccount" k "NotPresent" "" []
  | Ok sa =>
      mkRequirementStatus "" "v1" "ServiceAccount" k
        (if forallb (ruleOk sa) (grantRules gs k) then "Present" else "PresentNotSatisfied")
        "" (map (ruleDependent sa) (grantRules gs k))
  end.

(** The identity names of the grants, in order of first encounter. *)
Definition identityNames (gs : list grant) : list string :=
  remove_dups (map grantName gs).

End Meaning.


(** A status sequence in which every status is Present and every dependent
    of every status is Satisfied. *)
Definition allPresentAndSatisfied (statuses : list RequirementStatus) : Prop :=
  forall st, st ∈ statuses ->
    req_Status st = RequirementStatusReasonPresent
    /\ forall dep, dep ∈ req_Dependents st -> dep_Status dep = DependentStatusReasonSatisfied.

(** *** Concrete clusters and workloads *)

(** A runtime whose decoder answers [s] and whose map ranges follow
    [map_to_list]. *)
Definition runtimeDecoding (s : result Strategy) : Runtime :=
  mkRuntime (fun _ => s) (fun _ => Ok "{}") map_to_list (fun m => reflexivity _).

(** A cluster with no type definition and no service extension, in which
    every service account exists and satisfies every rule. *)
Definition permissiveOperator : Operator :=
  mkOperator
    (fun _ => Err (Errorf "not found"))
    (Ok [])
    (fun _ => Err (Errorf "not found"))
    (fun _ => true)
    (fun namespace name => Ok (mkServiceAccount namespace name))
    (fun _ _ _ _ => (true, None)).

(** The same cluster, except that no rule is satisfied cluster-wide. *)
Definition namespacedOperator : Operator :=
  mkOperator
    (fun _ => Err (Errorf "not found"))
    (Ok [])
    (fun _ => Err (Errorf "not found"))
    (fun _ => true)
    (fun namespace name => Ok (mkServiceAccount namespace name))
    (fun _ _ namespace _ => (bool_decide (namespace <> NamespaceAll), None)).

Definition getPods : PolicyRule := mkPolicyRule ["get"] [""] ["pods"] [] [].
Definition listNodes : PolicyRule := mkPolicyRule ["list"] [""] ["nodes"] [] [].

Definition bareCSV : ClusterServiceVersion :=
  mkCSV "etcd.v1" "ns" [] [] (mkNamedInstallStrategy "deployment" "{}").

(** One identity, granted a rule in the namespace and a rule cluster-wide. *)
Definition oneIdentity : StrategyDetailsDeployment :=
  mkStrategyDetailsDeployment
    [mkPermissions "sa" [getPods]] [mkPermissions "sa" [listNodes]].

(** Two identities, "b" declared before "a". *)
Definition twoIdentities : StrategyDetailsDeployment :=
  mkStrategyDetailsDeployment
    [mkPermissions "b" [getPods]; mkPermissions "a" [getPods]] [].

Definition noIdentity : StrategyDetailsDeployment :=
  mkStrategyDetailsDeployment [] [].

(** A cluster that serves one type definition and one service extension,
    and in which every service account but "ghost" exists. *)
Definition servingOperator : Operator :=
  mkOperator
    (fun name =>
       if bool_decide (name = "etcdclusters.etcd.database.coreos.com")
       then Ok (mkCRD "uid-1") else Err (Errorf "not found"))
    (Ok [mkAPIResourceList "packages.apps.redhat.com/v1alpha1"
           [mkAPIResource "PackageManifest"]])
    (fun name =>
       if bool_decide (name = "v1alpha1.packages.apps.redhat.com")
       then Ok (mkAPIService name "uid-2") else Err (Errorf "not found"))
    (fun _ => true)
    (fun namespace name =>
       if bool_decide (name = "ghost")
       then Err (Errorf "not found") else Ok (mkServiceAccount namespace name))
    (fun _ _ _ _ => (true, None)).

(** A workload that requires a served and an unserved type definition, and
    a served service extension. *)
Definition etcdCSV : ClusterServiceVersion :=
  mkCSV "etcd.v1" "ns"
    [mkCRDDescription "etcdclusters.etcd.database.coreos.com";
     mkCRDDescription "backups.example.com"]
    [mkAPIServiceDescription "packages.apps.redhat.com" "v1alpha1" "PackageManifest"]
    (mkNamedInstallStrategy "deployment" "{}").

(** A grant to the missing identity "ghost" and a cluster-wide grant to "sa". *)
Definition ghostIdentity : StrategyDetailsDeployment :=
  mkStrategyDetailsDeployment
    [mkPermissions "ghost" [getPods]] [mkPermissions "sa" [listNodes]].

(** A runtime that ranges over maps in the reverse order of [map_to_list]. *)
Definition reversedRuntime (s : result Strategy) : Runtime :=
  mkRuntime (fun _ => s) (fun _ => Ok "{}") (fun m => reverse (map_to_list m))
    (fun m => reverse_Permutation (map_to_list m)).

End Olm.

(* ===================================================================== *)
(** ** Package [packagemanifest]: reststorage.go *)
(* ===================================================================== *)

Module Packagemanifest.

(** *** Selectors of k8s.io/apimachinery

    [labels.Selector] is an interface of which the storage only calls
    [Matches]; a selector is the predicate it decides. *)
Definition labels_Selector : Type := gmap string string -> bool.

Definition labels_Everything : labels_Selector := fun _ => true.

Inductive selection_Operator : Type := Equals | NotEquals.

Record Requirement : Type := mkRequirement {
  Operator : selection_Operator;
  Field : string;
  Value : string
}.

(** [fields.Selector] is an interface, and any type with its methods is a
    selector. [nameFor] calls three of the methods: a selector is what they
    answer. *)
Record fields_Selector : Type := mkSelector {
  Empty : bool;
  RequiresExactMatch : string -> string * bool;
  Requirements : list Requirement
}.

(** The selectors of package [fields]: an equality term, an inequality
    term, a conjunction, and [fields.Nothing], which is not empty, requires
    no exact match and has no requirement. [fields.Everything] is the empty
    conjunction. *)
Definition hasTerm (field value : string) : fields_Selector :=
  mkSelector false
    (fun f => if bool_decide (field = f) then (value, true) else ("", false))
    [mkRequirement Equals field value].

Definition notHasTerm (field value : string) : fields_Selector :=
  mkSelector false (fun _ => ("", false)) [mkRequirement NotEquals field value].

(** The loop of [andTerm.RequiresExactMatch]: the first term that requires
    an exact match decides. *)
Fixpoint firstExactMatch (terms : list fields_Selector) (field : string) : string * bool :=
  match terms with
  | [] => ("", false)
  | t :: terms' =>
      let '(value, found) := RequiresExactMatch t field in
      if found then (value, found) else firstExactMatch terms' field
  end.

Definition andTerm (terms : list fields_Selector) : fields_Selector :=
  mkSelector (forallb Empty terms) (firstExactMatch terms) (flat_map Requirements terms).

Definition nothing : fields_Selector :=
  mkSelector false (fun _ => ("", false)) [].

Definition fields_Everything : fields_Selector := andTerm [].

(** *** Requests and records *)

(** [metainternalversion.ListOptions]; both selectors are interface values
    and may be nil. *)
Record ListOptions : Type := mkListOptions {
  LabelSelector : option labels_Selector;
  FieldSelector : option fields_Selector;
  ResourceVersion : string
}.

(** The request context carries the namespace of the request, if any;
    [genericapirequest.NamespaceValue] reads it, giving the empty string
    (which is [NamespaceAll]) when there is none. *)
Record Context : Type := mkContext {
  requestNamespace : option string
}.

Definition NamespaceValue (ctx : Context) : string :=
  match requestNamespace ctx with
  | Some namespace => namespace
  | None => ""
  end.

Record PackageManifest : Type := mkPackageManifest {
  GetName : string;
  GetNamespace : string;
  GetLabels : gmap string string;
  CatalogSource : string
}.

Record PackageManifestList : Type := mkPackageManifestList {
  ListMeta : string;
  Items : list PackageManifest
}.

(** The zero value [v1alpha1.PackageManifestList{}]. *)
Definition emptyPackageManifestList : PackageManifestList :=
  mkPackageManifestList "" [].

(** [provider.PackageManifestProvider]: [prov.List] and [prov.Get] return a
    pointer, which may be nil without an error. *)
Record PackageManifestProvider : Type := mkProvider {
  prov_List : string -> result (option PackageManifestList);
  prov_Get : string -> string -> result (option PackageManifest)
}.

Record PackageManifestStorage : Type := mkStorage {
  groupResource : string;
  prov : PackageManifestProvider
}.

Definition NewStorage (groupResource : string) (prov : PackageManifestProvider)
  : PackageManifestStorage :=
  mkStorage groupResource prov.

(** *** [nameFor] and [matches] *)

(** [fs.Requirements()[0]] panics when the slice is empty. *)
Definition nameFor (fs : option fields_Selector) : outcome (result string) :=
  let fs := match fs with None => fields_Everything | Some fs => fs end in
  let name := "" in
  let '(value, found) := RequiresExactMatch fs "metadata.name" in
  if found then Return (Ok value)
  else if negb (Empty fs) then
    match Requirements fs with
    | [] => Panic
    | r :: _ => Return (Err (Errorf ("field label not supported: " +:+ Field r)))
    end
  else Return (Ok name).

Definition matches (m : PackageManifest) (name namespace : string) (ls : labels_Selector)
  : bool :=
  let name := if bool_decide (name = "") then GetName m else name in
  let namespace :=
    if bool_decide (namespace = NamespaceAll) then GetNamespace m else namespace in
  ls (GetLabels m)
  && bool_decide (GetName m = name)
  && bool_decide (GetNamespace m = namespace).

(** What the spec asks of a record that [List] retains: the label selector
    matches its labels, the name filter is empty or is its name, and the
    requested namespace is "all" or is its namespace. *)
Definition retained (ls : labels_Selector) (nameFilter namespace : string)
    (m : PackageManifest) : Prop :=
  ls (GetLabels m) = true
  /\ (nameFilter = "" \/ GetName m = nameFilter)
  /\ (namespace = NamespaceAll \/ GetNamespace m = namespace).

#[global] Instance retained_dec ls nameFilter namespace m :
  Decision (retained ls nameFilter namespace m).
Proof. unfold retained. apply _. Defined.

(** The selector [nameFor] works on: [fields.Everything] stands in for nil. *)
Definition fieldSelectorOf (o : ListOptions) : fields_Selector :=
  match FieldSelector o with
  | Some fs => fs
  | None => fields_Everything
  end.

(** The guarded read [options != nil && options.LabelSelector != nil]. *)
Definition labelSelectorOf (options : option ListOptions) : labels_Selector :=
  match options with
  | Some o =>
      match LabelSelector o with
      | Some ls => ls
      | None => labels_Everything
      end
  | None => labels_Everything
  end.

(** *** [List]

    The two Go results [(runtime.Object, error)] are kept as a pair; reading
    [options.FieldSelector] through a nil [options] panics, and so does
    reading [res.Items] through a nil [res]. *)
Definition List (m : PackageManifestStorage) (ctx : Context) (options : option ListOptions)
  : outcome (option PackageManifestList * option error) :=
  let namespace := NamespaceValue ctx in
  let labelSelector := labelSelectorOf options in
  match options with
  | None => Panic
  | Some o =>
      match nameFor (FieldSelector o) with
      | Panic => Panic
      | Return (Err err) => Return (None, Some err)
      | Return (Ok name) =>
          match prov_List (prov m) namespace with
          | Err err => Return (Some emptyPackageManifestList, Some err)
          | Ok None => Panic
          | Ok (Some res) =>
              let filtered :=
                fold_left
                  (fun filtered manifest =>
                     if matches manifest name namespace labelSelector
                     then filtered ++ [manifest] else filtered)
                  (Items res) [] in
              Return (Some (mkPackageManifestList (ListMeta res) filtered), None)
          end
      end
  end.

(** *** [Get] *)
Definition Get (m : PackageManifestStorage) (ctx : Context) (name : string)
  : option PackageManifest * option error :=
  let namespace := NamespaceValue ctx in
  match prov_Get (prov m) namespace name with
  | Err err => (None, Some err)
  | Ok (Some pm) => (Some pm, None)
  | Ok None => (None, Some (NewNotFound (groupResource m) name))
  end.

(** *** The watcher *)

(** Modelled from the spec: [NewWatcher] and the watcher's [Run] are in a
    file of the package other than reststorage.go. Section 4.4 of the spec
    describes them: the watcher captures namespace, name, resource-version
    cursor and label selector on creation; it starts Initializing, where it
    emits one Added event per record of the current snapshot that matches;
    it then is Streaming, where every change of the provider's feed that
    passes the same filter is emitted and every other one is dropped; it is
    Closed by cancellation or when the feed ends. *)
Record PackageManifestWatcher : Type := mkWatcher {
  w_namespace : string;
  w_name : string;
  w_resourceVersion : string;
  w_labelSelector : labels_Selector;
  w_prov : PackageManifestProvider
}.

(** Modelled from the spec: the watcher captures its filter parameters on
    creation. *)
Definition NewWatcher (namespace name resourceVersion : string)
    (labelSelector : labels_Selector) (prov : PackageManifestProvider)
  : PackageManifestWatcher :=
  mkWatcher namespace name resourceVersion labelSelector prov.

(** Modelled from the spec: the three kinds of event of a watch. *)
Inductive EventType : Type := Added | Modified | Deleted.

(** Modelled from the spec: an event carries the record it is about. *)
Record Event : Type := mkEvent {
  ev_Type : EventType;
  ev_Object : PackageManifest
}.

(** Modelled from the spec: the three states of the watcher. *)
Inductive Phase : Type := Initializing | Streaming | Closed.

(** Modelled from the spec: the state of a running watcher is its phase, the
    snapshot records still to replay, the changes the provider's feed has
    yet to deliver, and the events put on the output channel so far. *)
Record WatcherState : Type := mkWatcherState {
  phase : Phase;
  pending : list PackageManifest;
  feed : list Event;
  emitted : list Event
}.

(** Modelled from the spec: what happens next to a watcher is that it takes
    its next step, or that its context is cancelled. *)
Inductive Signal : Type := Proceed | Cancel.

(** Modelled from the spec: the watcher applies the name, namespace and
    label filter of the storage. *)
Definition keeps (w : PackageManifestWatcher) (m : PackageManifest) : bool :=
  matches m (w_name w) (w_namespace w) (w_labelSelector w).

(** Modelled from the spec: the snapshot is the provider's collection for
    the namespace at subscription time, cut down to the matching records. *)
Definition snapshot (w : PackageManifestWatcher) : list PackageManifest :=
  match prov_List (w_prov w) (w_namespace w) with
  | Ok (Some res) => filter (fun m => keeps w m = true) (Items res)
  | _ => []
  end.

(** Modelled from the spec: a new subscription is Initializing, with the
    whole snapshot to replay and nothing emitted. *)
Definition subscribe (w : PackageManifestWatcher) (changes : list Event) : WatcherState :=
  mkWatcherState Initializing (snapshot w) changes [].

(** Modelled from the spec: one step of the state machine. Initializing
    emits an Added event for the next pending record and turns to Streaming
    when none is left; Streaming emits the next change of the feed if it
    passes the filter, drops it otherwise, and closes when the feed ends;
    cancellation closes the watcher; a closed watcher emits nothing. *)
Definition watcherStep (w : PackageManifestWatcher) (s : WatcherState) (sig : Signal)
  : WatcherState :=
  match phase s, sig with
  | Closed, _ => s
  | _, Cancel => mkWatcherState Closed (pending s) (feed s) (emitted s)
  | Initializing, Proceed =>
      match pending s with
      | m :: rest =>
          mkWatcherState Initializing rest (feed s) (emitted s ++ [mkEvent Added m])
      | [] => mkWatcherState Streaming [] (feed s) (emitted s)
      end
  | Streaming, Proceed =>
      match feed s with
      | [] => mkWatcherState Closed (pending s) [] (emitted s)
      | e :: rest =>
          if keeps w (ev_Object e)
          then mkWatcherState Streaming (pending s) rest (emitted s ++ [e])
          else mkWatcherState Streaming (pending s) rest (emitted s)
      end
  end.

(** Modelled from the spec: the synthetic events of a replay, and the
    changes that pass the filter. *)
Definition replay (records : list PackageManifest) : list Event :=
  map (mkEvent Added) records.

Definition passing (w : PackageManifestWatcher) (changes : list Event) : list Event :=
  filter (fun e => keeps w (ev_Object e) = true) changes.

(** Modelled from the spec: [Run], the watcher's task under a given sequence
    of signals. *)
Definition Run (w : PackageManifestWatcher) (changes : list Event) (sigs : list Signal)
  : WatcherState :=
  fold_left (watcherStep w) sigs (subscribe w changes).

(** What holds of a watcher after any signals: it has replayed the first
    [n] records of the snapshot and consumed the changes [consumed] of the
    feed, and no change is consumed while a record is pending. *)
Definition invariant (w : PackageManifestWatcher) (changes : list Event)
    (s : WatcherState) : Prop :=
  exists n consumed,
    emitted s = replay (take n (snapshot w)) ++ passing w consumed
    /\ pending s = drop n (snapshot w)
    /\ changes = consumed ++ feed s
    /\ (phase s = Initializing -> consumed = [])
    /\ (phase s = Streaming -> pending s = [])
    /\ (consumed <> [] -> pending s = []).

(** *** [Watch]

    [go watcher.Run(ctx)] starts the task above; [Watch] itself returns the
    watcher it created. *)
Definition Watch (m : PackageManifestStorage) (ctx : Context) (options : option ListOptions)
  : outcome (option PackageManifestWatcher * option error) :=
  let namespace := NamespaceValue ctx in
  match options with
  | None => Panic
  | Some o =>
      match nameFor (FieldSelector o) with
      | Panic => Panic
      | Return (Err err) => Return (None, Some err)
      | Return (Ok name) =>
          let labelSelector := labelSelectorOf options in
          let watcher := NewWatcher namespace name (ResourceVersion o) labelSelector (prov m) in
          Return (Some watcher, None)
      end
  end.

(** *** [New], [Kind] and [NewList] *)

(** The zero value [v1alpha1.PackageManifest{}]. *)
Definition New (m : PackageManifestStorage) : PackageManifest :=
  mkPackageManifest "" "" ∅ "".

Definition Kind (m : PackageManifestStorage) : string := "PackageManifest".

Definition NewList (m : PackageManifestStorage) : PackageManifestList :=
  emptyPackageManifestList.

Definition NamespaceScoped (m : PackageManifestStorage) : bool := true.

(** *** A concrete provider *)

Definition etcd : PackageManifest :=
  mkPackageManifest "etcd" "community" {["tier" := "stable"]} "operators".

Definition prometheus : PackageManifest :=
  mkPackageManifest "prometheus" "community" ∅ "operators".

Definition vault : PackageManifest :=
  mkPackageManifest "vault" "internal" {["tier" := "stable"]} "operators".

Definition catalog : PackageManifestProvider :=
  mkProvider
    (fun _ => Ok (Some (mkPackageManifestList "42" [etcd; prometheus; vault])))
    (fun _ _ => Ok None).

Definition catalogStorage : PackageManifestStorage := NewStorage "packagemanifests" catalog.

(** A label selector for [tier=stable]. *)
Definition stable : labels_Selector :=
  fun labels => bool_decide (labels !! "tier" = Some "stable").

End Packagemanifest.

(* ===================================================================== *)
(** ** Properties of the requirement resolver *)
(* ===================================================================== *)

Module OlmSpec.

Import Olm.

Section Loops.

Variable rt : Runtime.
Variable a : Operator.

(** *** The loops over type definitions and service extensions *)

Lemma crdStep_eq acc r :
  crdStep a acc r = (acc.1 && crdPresent a r, acc.2 ++ [crdStatus a r]).
Proof.
  destruct acc as [met statuses]. unfold crdStep, crdPresent, crdStatus. simpl.
  destruct (CustomResourceDefinitions_Get a (crd_Name r)); simpl.
  - by rewrite andb_true_r.
  - by rewrite andb_false_r.
Qed.

Lemma fold_crdStep l acc :
  fold_left (crdStep a) l acc
  = (acc.1 && forallb (crdPresent a) l, acc.2 ++ map (crdStatus a) l).
Proof.
  revert acc. induction l as [|r l IH]; intros [met statuses]; cbn [fold_left].
  - simpl. by rewrite andb_true_r, app_nil_r.
  - rewrite IH, crdStep_eq. simpl. by rewrite andb_assoc, <- app_assoc.
Qed.

Lemma apiStep_eq acc r :
  apiStep a acc r = (acc.1 && apiPresent a r, acc.2 ++ [apiStatus a r]).
Proof.
  destruct acc as [met statuses].
  unfold apiStep, apiPresent, apiStatus, apiAvailable. simpl.
  destruct (isGVKRegistered a (api_Name r) (api_Version r) (api_Kind r)); simpl;
    [by rewrite andb_false_r|].
  destruct (APIServices_Get a _) as [apiService|]; simpl;
    [|by rewrite andb_false_r].
  destruct (isAPIServiceAvailable a apiService); simpl.
  - by rewrite andb_true_r.
  - by rewrite andb_false_r.
Qed.

Lemma fold_apiStep l acc :
  fold_left (apiStep a) l acc
  = (acc.1 && forallb (apiPresent a) l, acc.2 ++ map (apiStatus a) l).
Proof.
  revert acc. induction l as [|r l IH]; intros [met statuses]; cbn [fold_left].
  - simpl. by rewrite andb_true_r, app_nil_r.
  - rewrite IH, apiStep_eq. simpl. by rewrite andb_assoc, <- app_assoc.
Qed.

Lemma crdStatus_Present r :
  req_Status (crdStatus a r) = RequirementStatusReasonPresent <-> crdPresent a r = true.
Proof.
  unfold crdStatus, crdPresent.
  destruct (CustomResourceDefinitions_Get a (crd_Name r)); simpl; split; done.
Qed.

Lemma apiStatus_Present r :
  req_Status (apiStatus a r) = RequirementStatusReasonPresent <-> apiPresent a r = true.
Proof.
  unfold apiStatus, apiPresent.
  destruct (apiAvailable a r); simpl; split; try done.
Qed.

Lemma crdStatus_Dependents r : req_Dependents (crdStatus a r) = [].
Proof. unfold crdStatus. by destruct (CustomResourceDefinitions_Get a (crd_Name r)). Qed.

Lemma apiStatus_Dependents r : req_Dependents (apiStatus a r) = [].
Proof. unfold apiStatus. by destruct (apiAvailable a r). Qed.

Lemma crdStatus_nonzero r : crdStatus a r <> zeroRequirementStatus.
Proof. unfold crdStatus. by destruct (CustomResourceDefinitions_Get a (crd_Name r)). Qed.

Lemma apiStatus_nonzero r : apiStatus a r <> zeroRequirementStatus.
Proof. unfold apiStatus. by destruct (apiAvailable a r). Qed.

End Loops.

Section PermissionLoop.

Variable rt : Runtime.
Variable a : Operator.
Variable csv : ClusterServiceVersion.

(** *** The loop over the rules of one grant *)

Lemma ruleStep_eq sa namespace status met rule :
  ruleStep rt a csv sa namespace (status, met) rule
  = (append_Dependent (ruleDependent rt a csv sa (namespace, rule))
       (if ruleOk rt a csv sa (namespace, rule) then status
        else set_Status RequirementStatusReasonPresentNotSatisfied status),
     met && ruleOk rt a csv sa (namespace, rule)).
Proof.
  unfold ruleStep, ruleDependent, ruleOk. simpl.
  destruct (json_Marshal rt rule) as [marshalled|]; simpl.
  - destruct (RuleSatisfied a csv sa namespace rule) as [[|] [err|]]; simpl;
      by rewrite ?andb_true_r, ?andb_false_r.
  - by rewrite andb_true_r.
Qed.

Lemma fold_ruleStep sa namespace rules status met :
  fold_left (ruleStep rt a csv sa namespace) rules (status, met)
  = (afterRules rt a csv sa (map (pair namespace) rules) status,
     met && forallb (ruleOk rt a csv sa) (map (pair namespace) rules)).
Proof.
  revert status met. induction rules as [|rule rules IH]; intros status met;
    cbn [fold_left map forallb].
  - unfold afterRules. simpl. rewrite app_nil_r, andb_true_r. by destruct status.
  - rewrite ruleStep_eq, IH. f_equal; [|by rewrite andb_assoc].
    unfold afterRules, append_Dependent, set_Status. cbn [map forallb].
    destruct (ruleOk rt a csv sa (namespace, rule)); simpl;
      rewrite <- app_assoc; simpl; [done|].
    by destruct (forallb _ _).
Qed.

Lemma permStep_eq namespace statusesSet met perm :
  permStep rt a csv namespace (statusesSet, met) perm
  = match GetServiceAccount a (GetNamespace csv) (ServiceAccountName perm) with
    | Err _ =>
        (<[ServiceAccountName perm :=
             set_Status RequirementStatusReasonNotPresent
               (startStatus statusesSet (ServiceAccountName perm))]> statusesSet,
         false)
    | Ok sa =>
        (<[ServiceAccountName perm :=
             afterRules rt a csv sa (map (pair namespace) (Rules perm))
               (startStatus statusesSet (ServiceAccountName perm))]> statusesSet,
         met && forallb (ruleOk rt a csv sa) (map (pair namespace) (Rules perm)))
    end.
Proof.
  unfold permStep, startStatus.
  destruct (GetServiceAccount a (GetNamespace csv) (ServiceAccountName perm)); [|done].
  by rewrite fold_ruleStep.
Qed.

Lemma runGrants_snoc gs g acc :
  runGrants rt a csv (gs ++ [g]) acc
  = permStep rt a csv g.2 (runGrants rt a csv gs acc) g.1.
Proof. unfold runGrants. by rewrite fold_left_app. Qed.

Lemma runGrants_app gs1 gs2 acc :
  runGrants rt a csv (gs1 ++ gs2) acc
  = runGrants rt a csv gs2 (runGrants rt a csv gs1 acc).
Proof. unfold runGrants. by rewrite fold_left_app. Qed.

Lemma checkPermissions_runGrants perms namespace acc :
  checkPermissions rt a csv perms namespace acc
  = runGrants rt a csv (map (fun perm => (perm, namespace)) perms) acc.
Proof.
  unfold checkPermissions, runGrants. revert acc.
  induction perms as [|perm perms IH]; intros acc; simpl; [done|apply IH].
Qed.

(** *** The rules and the status of one identity *)

Lemma grantRules_app gs1 gs2 k :
  grantRules (gs1 ++ gs2) k = grantRules gs1 k ++ grantRules gs2 k.
Proof. unfold grantRules. by rewrite flat_map_app. Qed.

Lemma grantRules_absent gs k :
  k ∉ map grantName gs -> grantRules gs k = [].
Proof.
  induction gs as [|g gs IH]; intros Hk; [done|].
  simpl in *. apply not_elem_of_cons in Hk as [Hne Hk].
  rewrite bool_decide_eq_false_2 by done. simpl. by apply IH.
Qed.

Lemma grantRules_snoc_eq gs g :
  grantRules (gs ++ [g]) (grantName g)
  = grantRules gs (grantName g) ++ map (pair g.2) (Rules g.1).
Proof.
  rewrite grantRules_app. f_equal. simpl.
  rewrite bool_decide_eq_true_2 by done. by rewrite app_nil_r.
Qed.

Lemma grantRules_snoc_ne gs g k :
  grantName g <> k -> grantRules (gs ++ [g]) k = grantRules gs k.
Proof.
  intros Hne. rewrite grantRules_app. simpl.
  rewrite bool_decide_eq_false_2 by done. by rewrite !app_nil_r.
Qed.

Lemma identityStatus_snoc_ne gs g k :
  grantName g <> k -> identityStatus rt a csv (gs ++ [g]) k = identityStatus rt a csv gs k.
Proof. intros Hne. unfold identityStatus. by rewrite grantRules_snoc_ne. Qed.

Lemma identityStatus_Present gs k :
  req_Status (identityStatus rt a csv gs k) = RequirementStatusReasonPresent
  <-> exists sa, GetServiceAccount a (GetNamespace csv) k = Ok sa
                 /\ forallb (ruleOk rt a csv sa) (grantRules gs k) = true.
Proof.
  unfold identityStatus.
  destruct (GetServiceAccount a (GetNamespace csv) k) as [sa|e]; simpl.
  - destruct (forallb _ _) eqn:Hall; split.
    + intros _. by exists sa.
    + done.
    + done.
    + intros (sa' & Heq & Hall'). congruence.
  - split; [done|]. by intros (sa & ? & _).
Qed.

End PermissionLoop.

Section PermissionPass.

Variable rt : Runtime.
Variable a : Operator.
Variable csv : ClusterServiceVersion.

(** *** The map [statusesSet] after any sequence of grants *)

Lemma names_snoc (gs : list grant) g k :
  k ∈ map grantName (gs ++ [g]) <-> k ∈ map grantName gs \/ k = grantName g.
Proof. rewrite map_app, elem_of_app. simpl. by rewrite list_elem_of_singleton. Qed.

(** The status a grant for [grantName g] starts from, after the grants
    [gs], is the identity's status so far. *)
Lemma startStatus_identity gs (m : gmap string RequirementStatus) k :
  (m !! k = if bool_decide (k ∈ map grantName gs)
            then Some (identityStatus rt a csv gs k) else None) ->
  forall sa, GetServiceAccount a (GetNamespace csv) k = Ok sa ->
  startStatus m k
  = mkRequirementStatus "" "v1" "ServiceAccount" k
      (if forallb (ruleOk rt a csv sa) (grantRules gs k)
       then "Present" else "PresentNotSatisfied")
      "" (map (ruleDependent rt a csv sa) (grantRules gs k)).
Proof.
  intros Hm sa Hsa. unfold startStatus. rewrite Hm. case_bool_decide as Hk.
  - unfold identityStatus. by rewrite Hsa.
  - by rewrite grantRules_absent.
Qed.

Lemma runGrants_lookup gs k :
  (runGrants rt a csv gs (∅, true)).1 !! k
  = if bool_decide (k ∈ map grantName gs)
    then Some (identityStatus rt a csv gs k) else None.
Proof.
  induction gs as [|g gs IH] using rev_ind.
  - simpl. by rewrite lookup_empty.
  - rewrite runGrants_snoc. destruct (runGrants rt a csv gs (∅, true)) as [m met].
    simpl in IH. rewrite permStep_eq. fold (grantName g).
    destruct (decide (grantName g = k)) as [<-|Hne].
    + rewrite (bool_decide_eq_true_2 (grantName g ∈ _)) by (apply names_snoc; by right).
      destruct (GetServiceAccount a (GetNamespace csv) (grantName g)) as [sa|e] eqn:Hsa;
        simpl; rewrite lookup_insert_eq; f_equal.
      * rewrite (startStatus_identity gs m _ IH sa Hsa).
        unfold identityStatus. rewrite Hsa, grantRules_snoc_eq.
        unfold afterRules. simpl. rewrite forallb_app, map_app.
        by destruct (forallb _ (grantRules gs (grantName g))), (forallb _ _).
      * unfold identityStatus. rewrite Hsa. unfold startStatus. rewrite IH.
        case_bool_decide; [|done]. unfold identityStatus. by rewrite Hsa.
    + rewrite identityStatus_snoc_ne by done.
      destruct (GetServiceAccount a (GetNamespace csv) (grantName g)) as [sa|e];
        simpl; rewrite lookup_insert_ne by done; rewrite IH;
        apply (f_equal (fun b : bool => if b then _ else _));
        apply bool_decide_ext; rewrite names_snoc;
        (split; [by left | intros [?| ->]; [done|congruence]]).
Qed.

Lemma runGrants_met gs :
  (runGrants rt a csv gs (∅, true)).2 = true
  <-> forall k, k ∈ map grantName gs ->
        req_Status (identityStatus rt a csv gs k) = RequirementStatusReasonPresent.
Proof.
  induction gs as [|g gs IH] using rev_ind.
  - simpl. split; [|done]. intros _ k Hk. by apply elem_of_nil in Hk.
  - rewrite runGrants_snoc.
    pose proof (runGrants_lookup gs (grantName g)) as Hlook.
    destruct (runGrants rt a csv gs (∅, true)) as [m met].
    simpl in IH, Hlook. rewrite permStep_eq. fold (grantName g).
    destruct (GetServiceAccount a (GetNamespace csv) (grantName g)) as [sa|e] eqn:Hsa;
      simpl.
    + rewrite andb_true_iff, IH. split.
      * intros [Hold Hnew] k Hk. apply identityStatus_Present.
        destruct (decide (grantName g = k)) as [<-|Hne].
        -- exists sa. split; [done|]. rewrite grantRules_snoc_eq, forallb_app.
           apply andb_true_iff. split; [|done].
           destruct (decide (grantName g ∈ map grantName gs)) as [Hin|Hout].
           ++ apply Hold, identityStatus_Present in Hin as (sa' & Hsa' & Hall).
              congruence.
           ++ by rewrite grantRules_absent.
        -- rewrite grantRules_snoc_ne by done. apply identityStatus_Present, Hold.
           apply names_snoc in Hk as [Hk| ->]; [done|congruence].
      * intros Hall. split.
        -- intros k Hk. apply identityStatus_Present.
           assert (k ∈ map grantName (gs ++ [g])) as Hk' by (apply names_snoc; by left).
           apply Hall, identityStatus_Present in Hk' as (sa' & Hsa' & Hall').
           exists sa'. split; [done|].
           destruct (decide (grantName g = k)) as [<-|Hne].
           ++ rewrite grantRules_snoc_eq, forallb_app in Hall'.
              by apply andb_true_iff in Hall' as [? _].
           ++ by rewrite grantRules_snoc_ne in Hall'.
        -- assert (grantName g ∈ map grantName (gs ++ [g])) as Hk' by (apply names_snoc; by right).
           apply Hall, identityStatus_Present in Hk' as (sa' & Hsa' & Hall').
           rewrite grantRules_snoc_eq, forallb_app in Hall'.
           apply andb_true_iff in Hall' as [_ Hnew]. congruence.
    + split; [done|]. intros Hall.
      assert (grantName g ∈ map grantName (gs ++ [g])) as Hk' by (apply names_snoc; by right).
      apply Hall, identityStatus_Present in Hk' as (sa' & Hsa' & _). congruence.
Qed.

End PermissionPass.
Section PermissionStatus.

Variable rt : Runtime.
Variable a : Operator.
Variable csv : ClusterServiceVersion.

(** *** The slice built from the map *)

Lemma elem_of_List_map {A B} (f : A -> B) (l : list A) (y : B) :
  y ∈ map f l <-> exists x, y = f x /\ x ∈ l.
Proof. apply (list_elem_of_fmap f l y). Qed.

Lemma fold_append (l : list (string * RequirementStatus)) acc :
  fold_left (fun statuses kv => statuses ++ [kv.2]) l acc = acc ++ map snd l.
Proof.
  revert acc. induction l as [|kv l IH]; intros acc; simpl.
  - by rewrite app_nil_r.
  - rewrite IH. by rewrite <- app_assoc.
Qed.

(** [make] with a length, followed by [append]: as many zero values as the
    map has entries come before the entries themselves. *)
Lemma collectStatuses_eq m :
  collectStatuses rt m
  = replicate (size m) zeroRequirementStatus ++ map snd (mapRange rt m).
Proof. unfold collectStatuses. apply fold_append. Qed.

Lemma nonzero_app l1 l2 : nonzero (l1 ++ l2) = nonzero l1 ++ nonzero l2.
Proof. unfold nonzero. apply filter_app. Qed.

Lemma nonzero_replicate n : nonzero (replicate n zeroRequirementStatus) = [].
Proof.
  unfold nonzero. induction n as [|n IH]; [done|]. simpl.
  rewrite filter_cons_False; [done|]. by intros H.
Qed.

Lemma nonzero_id l :
  (forall st, st ∈ l -> st <> zeroRequirementStatus) -> nonzero l = l.
Proof.
  unfold nonzero. induction l as [|st l IH]; intros Hl; [done|].
  rewrite filter_cons_True by (apply Hl; by left).
  f_equal. apply IH. intros st' Hst'. apply Hl. by right.
Qed.

Lemma identityStatus_nonzero gs k :
  identityStatus rt a csv gs k <> zeroRequirementStatus.
Proof.
  unfold identityStatus. by destruct (GetServiceAccount a (GetNamespace csv) k).
Qed.

(** The entries of the map are the statuses of the identities, one for each
    distinct name. *)
Lemma runGrants_to_list gs :
  map_to_list (runGrants rt a csv gs (∅, true)).1
  ≡ₚ map (fun k => (k, identityStatus rt a csv gs k)) (identityNames gs).
Proof.
  apply NoDup_Permutation.
  - apply NoDup_map_to_list.
  - change (NoDup ((fun k => (k, identityStatus rt a csv gs k)) <$> identityNames gs)).
    apply NoDup_fmap_2; [by intros k1 k2 [= ->]|]. apply NoDup_remove_dups.
  - intros [k st]. rewrite elem_of_map_to_list, runGrants_lookup.
    unfold identityNames. split.
    + case_bool_decide as Hk; [|done]. intros [= <-]. apply elem_of_List_map.
      exists k. split; [done|]. by apply elem_of_remove_dups.
    + intros (k' & [= -> ->] & Hk')%elem_of_List_map.
      apply (proj1 (elem_of_remove_dups _ _)) in Hk'.
      by rewrite bool_decide_eq_true_2.
Qed.

Lemma runGrants_values gs :
  map snd (mapRange rt (runGrants rt a csv gs (∅, true)).1)
  ≡ₚ map (identityStatus rt a csv gs) (identityNames gs).
Proof.
  rewrite (Permutation_map snd (mapRange_perm rt _)).
  rewrite (Permutation_map snd (runGrants_to_list gs)).
  by rewrite map_map.
Qed.

Lemma runGrants_size gs :
  size (runGrants rt a csv gs (∅, true)).1 = length (identityNames gs).
Proof.
  rewrite <- length_map_to_list, (Permutation_length (runGrants_to_list gs)).
  apply length_map.
Qed.

(** *** [permissionStatus] in terms of the declared grants *)

Lemma permissionStatus_deployment d :
  UnmarshalStrategy rt (InstallStrategy csv) = Ok (StrategyDeployment d) ->
  permissionStatus rt a csv
  = ((runGrants rt a csv (passGrants csv d) (∅, true)).2,
     collectStatuses rt (runGrants rt a csv (passGrants csv d) (∅, true)).1).
Proof.
  intros Hd. unfold permissionStatus. rewrite Hd. simpl.
  rewrite !checkPermissions_runGrants, <- runGrants_app. done.
Qed.

Lemma permissionStatus_nonzero :
  nonzero (permissionStatus rt a csv).2
  ≡ₚ map (identityStatus rt a csv (declaredGrants rt csv))
       (identityNames (declaredGrants rt csv)).
Proof.
  unfold declaredGrants.
  destruct (UnmarshalStrategy rt (InstallStrategy csv)) as [[d|other]|e] eqn:Hd.
  - rewrite (permissionStatus_deployment d Hd). simpl.
    rewrite collectStatuses_eq, nonzero_app, nonzero_replicate. simpl.
    rewrite <- runGrants_values. rewrite nonzero_id; [done|].
    intros st Hst.
    assert (st ∈ map (identityStatus rt a csv (passGrants csv d))
                     (identityNames (passGrants csv d))) as Hst'.
    { by apply (elem_of_Permutation_proper st _ _ (runGrants_values (passGrants csv d))). }
    apply elem_of_List_map in Hst' as (k & -> & _). apply identityStatus_nonzero.
  - unfold permissionStatus. by rewrite Hd.
  - unfold permissionStatus. by rewrite Hd.
Qed.

Lemma requirementStatus_eq :
  requirementStatus rt a csv
  = (forallb (crdPresent a) (GetAllCRDDescriptions csv)
     && forallb (apiPresent a) (GetAllAPIServiceDescriptions csv)
     && (permissionStatus rt a csv).1,
     map (crdStatus a) (GetAllCRDDescriptions csv)
     ++ map (apiStatus a) (GetAllAPIServiceDescriptions csv)
     ++ (permissionStatus rt a csv).2).
Proof.
  unfold requirementStatus. rewrite fold_crdStep, fold_apiStep. simpl.
  destruct (permissionStatus rt a csv) as [permissionsMet permissionStatuses].
  simpl. by rewrite <- app_assoc.
Qed.

End PermissionStatus.
Section Met.

Variable rt : Runtime.
Variable a : Operator.
Variable csv : ClusterServiceVersion.

(** *** When every status is Present and every dependent Satisfied *)

Lemma allPresentAndSatisfied_app l1 l2 :
  allPresentAndSatisfied (l1 ++ l2)
  <-> allPresentAndSatisfied l1 /\ allPresentAndSatisfied l2.
Proof.
  unfold allPresentAndSatisfied. split.
  - intros H. split; intros st Hst; apply H, elem_of_app; [by left|by right].
  - intros [H1 H2] st [Hst|Hst]%elem_of_app; [by apply H1|by apply H2].
Qed.

Lemma allPresentAndSatisfied_perm l1 l2 :
  l1 ≡ₚ l2 -> allPresentAndSatisfied l1 <-> allPresentAndSatisfied l2.
Proof.
  intros Hperm. unfold allPresentAndSatisfied.
  split; intros H st Hst; apply H;
    by apply (elem_of_Permutation_proper st _ _ Hperm).
Qed.

Lemma allPresentAndSatisfied_crd l :
  allPresentAndSatisfied (map (crdStatus a) l) <-> forallb (crdPresent a) l = true.
Proof.
  rewrite forallb_forall. unfold allPresentAndSatisfied. split.
  - intros H r Hr. apply crdStatus_Present, H, elem_of_List_map. exists r.
    split; [done|]. by apply list_elem_of_In.
  - intros H st (r & -> & Hr)%elem_of_List_map. split.
    + by apply crdStatus_Present, H, list_elem_of_In.
    + rewrite crdStatus_Dependents. by intros dep Hdep%elem_of_nil.
Qed.

Lemma allPresentAndSatisfied_api l :
  allPresentAndSatisfied (map (apiStatus a) l) <-> forallb (apiPresent a) l = true.
Proof.
  rewrite forallb_forall. unfold allPresentAndSatisfied. split.
  - intros H r Hr. apply apiStatus_Present, H, elem_of_List_map. exists r.
    split; [done|]. by apply list_elem_of_In.
  - intros H st (r & -> & Hr)%elem_of_List_map. split.
    + by apply apiStatus_Present, H, list_elem_of_In.
    + rewrite apiStatus_Dependents. by intros dep Hdep%elem_of_nil.
Qed.

Lemma grantRules_elem gs k nr :
  nr ∈ grantRules gs k -> exists g, g ∈ gs /\ nr.2 ∈ Rules g.1.
Proof.
  unfold grantRules. intros Hnr%list_elem_of_In.
  apply in_flat_map in Hnr as (g & Hg & Hnr). exists g.
  split; [by apply list_elem_of_In|].
  case_bool_decide; [|by apply list_elem_of_In, elem_of_nil in Hnr].
  apply list_elem_of_In, elem_of_List_map in Hnr as (rule & -> & Hrule). done.
Qed.

(** A rule that can be encoded and leaves [met] alone is recorded as
    Satisfied. *)
Lemma ruleDependent_Satisfied sa nr s :
  json_Marshal rt nr.2 = Ok s ->
  ruleOk rt a csv sa nr = true ->
  dep_Status (ruleDependent rt a csv sa nr) = DependentStatusReasonSatisfied.
Proof.
  unfold ruleOk, ruleDependent. intros ->. simpl.
  by destruct (RuleSatisfied a csv sa nr.1 nr.2) as [[|] [err|]].
Qed.

Lemma allPresentAndSatisfied_identity gs :
  serialisable rt gs ->
  allPresentAndSatisfied (map (identityStatus rt a csv gs) (identityNames gs))
  <-> (runGrants rt a csv gs (∅, true)).2 = true.
Proof.
  intros Hser. rewrite runGrants_met. unfold allPresentAndSatisfied, identityNames.
  split.
  - intros H k Hk. apply H, elem_of_List_map. exists k. split; [done|].
    by apply elem_of_remove_dups.
  - intros H st (k & -> & Hk)%elem_of_List_map.
    apply (proj1 (elem_of_remove_dups _ _)), H in Hk. split; [done|].
    apply identityStatus_Present in Hk as (sa & Hsa & Hall).
    unfold identityStatus. rewrite Hsa. simpl.
    intros dep (nr & -> & Hnr)%elem_of_List_map.
    destruct (grantRules_elem _ _ _ Hnr) as (g & Hg & Hrule).
    destruct (Hser g nr.2 Hg Hrule) as [s Hs].
    apply (ruleDependent_Satisfied sa nr s Hs).
    rewrite forallb_forall in Hall. by apply Hall, list_elem_of_In.
Qed.

Lemma nonzero_requirementStatus :
  nonzero (requirementStatus rt a csv).2
  ≡ₚ map (crdStatus a) (GetAllCRDDescriptions csv)
     ++ map (apiStatus a) (GetAllAPIServiceDescriptions csv)
     ++ map (identityStatus rt a csv (declaredGrants rt csv))
          (identityNames (declaredGrants rt csv)).
Proof.
  rewrite requirementStatus_eq. simpl. rewrite !nonzero_app.
  rewrite permissionStatus_nonzero.
  rewrite !nonzero_id; [done| |].
  - intros st (r & -> & _)%elem_of_List_map. apply apiStatus_nonzero.
  - intros st (r & -> & _)%elem_of_List_map. apply crdStatus_nonzero.
Qed.

End Met.

(** *** C1 *)

(** C1, as stated, fails when the install strategy does not decode: the
    workload below declares nothing, so every status of the (empty) sequence
    is Present and every dependent Satisfied, yet [met] is false. *)
Lemma C1_counterexample_decode_failure :
  let r := requirementStatus (runtimeDecoding (Err (Errorf "unknown strategy")))
             permissiveOperator bareCSV in
  ~ (r.1 = true <-> allPresentAndSatisfied r.2).
Proof.
  intros r [_ H]. assert (r.1 = true) as Hmet; [|by vm_compute in Hmet].
  apply H. intros st Hst. vm_compute in Hst. by apply elem_of_nil in Hst.
Qed.

(** C1, amended: for a workload whose install strategy decodes to the
    deployment variant and whose rules can all be encoded, [met] is true if
    and only if every RequirementStatus of the returned sequence, other than
    zero values, has status Present and all its dependents are Satisfied. *)
Theorem C1_met_iff_present_and_satisfied rt a csv d :
  UnmarshalStrategy rt (InstallStrategy csv) = Ok (StrategyDeployment d) ->
  serialisable rt (passGrants csv d) ->
  (requirementStatus rt a csv).1 = true
  <-> allPresentAndSatisfied (nonzero (requirementStatus rt a csv).2).
Proof.
  intros Hd Hser.
  rewrite (allPresentAndSatisfied_perm _ _ (nonzero_requirementStatus rt a csv)).
  rewrite !allPresentAndSatisfied_app.
  rewrite allPresentAndSatisfied_crd, allPresentAndSatisfied_api.
  unfold declaredGrants. rewrite Hd.
  rewrite allPresentAndSatisfied_identity by done.
  rewrite requirementStatus_eq, (permissionStatus_deployment rt a csv d Hd). simpl.
  rewrite !andb_true_iff. tauto.
Qed.

Lemma C1_met_iff_present_and_satisfied_witness :
  let rt := runtimeDecoding (Ok (StrategyDeployment oneIdentity)) in
  UnmarshalStrategy rt (InstallStrategy bareCSV) = Ok (StrategyDeployment oneIdentity)
  /\ serialisable rt (passGrants bareCSV oneIdentity)
  /\ ((requirementStatus rt permissiveOperator bareCSV).1 = true
      <-> allPresentAndSatisfied
            (nonzero (requirementStatus rt permissiveOperator bareCSV).2)).
Proof.
  intros rt.
  assert (serialisable rt (passGrants bareCSV oneIdentity)) as Hser.
  { intros g rule _ _. exists "{}". reflexivity. }
  split; [reflexivity|]. split; [exact Hser|].
  apply (C1_met_iff_present_and_satisfied rt permissiveOperator bareCSV oneIdentity);
    [reflexivity|exact Hser].
Defined.

(** *** C2 *)

(** The statuses [permissionStatus] returns for a deployment strategy: one
    zero value for each distinct identity name, then the statuses of the
    identities in the order of the map range. *)
Lemma permissionStatus_statuses rt a csv d :
  UnmarshalStrategy rt (InstallStrategy csv) = Ok (StrategyDeployment d) ->
  exists ids,
    (permissionStatus rt a csv).2
    = replicate (length (identityNames (passGrants csv d))) zeroRequirementStatus ++ ids
    /\ ids ≡ₚ map (identityStatus rt a csv (passGrants csv d))
                (identityNames (passGrants csv d)).
Proof.
  intros Hd. rewrite (permissionStatus_deployment rt a csv d Hd). simpl.
  rewrite collectStatuses_eq, runGrants_size. eexists. split; [done|].
  apply runGrants_values.
Qed.

(** The dependents of an identity granted rules in both lists are the
    outcomes of the namespaced rules followed by those of the cluster-wide
    rules. *)
Lemma identityStatus_Dependents_both rt a csv d k sa :
  GetServiceAccount a (GetNamespace csv) k = Ok sa ->
  req_Dependents (identityStatus rt a csv (passGrants csv d) k)
  = map (ruleDependent rt a csv sa)
      (grantRules (map (fun perm => (perm, GetNamespace csv)) (Permissions d)) k)
    ++ map (ruleDependent rt a csv sa)
         (grantRules (map (fun perm => (perm, NamespaceAll)) (ClusterPermissions d)) k).
Proof.
  intros Hsa. unfold identityStatus, passGrants. rewrite Hsa. simpl.
  by rewrite grantRules_app, map_app.
Qed.


(** *** C3 *)

(** C3, as stated, fails for a workload that declares nothing and whose
    install strategy is not a deployment: [met] is false. *)
Lemma C3_counterexample_other_strategy :
  let rt := runtimeDecoding (Ok (StrategyOther "helm")) in
  GetAllCRDDescriptions bareCSV = []
  /\ GetAllAPIServiceDescriptions bareCSV = []
  /\ declaredGrants rt bareCSV = []
  /\ requirementStatus rt permissiveOperator bareCSV = (false, [])
  /\ requirementStatus rt permissiveOperator bareCSV <> (true, []).
Proof. do 4 (split; [reflexivity|]). by vm_compute. Qed.

(** C3, amended: a workload with no type-definition requirement, no
    service-extension requirement and a deployment strategy without identity
    grants gets [met = true] and an empty status sequence. *)
Theorem C3_no_requirements rt a csv d :
  GetAllCRDDescriptions csv = [] ->
  GetAllAPIServiceDescriptions csv = [] ->
  UnmarshalStrategy rt (InstallStrategy csv) = Ok (StrategyDeployment d) ->
  Permissions d = [] ->
  ClusterPermissions d = [] ->
  requirementStatus rt a csv = (true, []).
Proof.
  intros Hcrd Hapi Hd Hperm Hcluster.
  rewrite requirementStatus_eq, Hcrd, Hapi.
  rewrite (permissionStatus_deployment rt a csv d Hd).
  unfold passGrants. rewrite Hperm, Hcluster. simpl.
  rewrite collectStatuses_eq, map_size_empty. simpl.
  pose proof (mapRange_perm rt ∅) as Hrange. rewrite map_to_list_empty in Hrange.
  apply Permutation_nil_r in Hrange. by rewrite Hrange.
Qed.

Lemma C3_no_requirements_witness :
  let rt := runtimeDecoding (Ok (StrategyDeployment noIdentity)) in
  GetAllCRDDescriptions bareCSV = []
  /\ GetAllAPIServiceDescriptions bareCSV = []
  /\ UnmarshalStrategy rt (InstallStrategy bareCSV) = Ok (StrategyDeployment noIdentity)
  /\ Permissions noIdentity = []
  /\ ClusterPermissions noIdentity = []
  /\ requirementStatus rt permissiveOperator bareCSV = (true, []).
Proof.
  intros rt. do 5 (split; [reflexivity|]).
  apply (C3_no_requirements rt permissiveOperator bareCSV noIdentity); reflexivity.
Defined.

(** *** C4 *)

(** C4, as stated, fails on the order of the identity statuses: "b" is
    granted before "a", and the range over the map visits "a" first. *)
Lemma C4_counterexample_map_order :
  let rt := runtimeDecoding (Ok (StrategyDeployment twoIdentities)) in
  identityNames (declaredGrants rt bareCSV) = ["b"; "a"]
  /\ map req_Name (nonzero (requirementStatus rt permissiveOperator bareCSV).2)
     = ["a"; "b"].
Proof. split; vm_compute; reflexivity. Qed.

(** C4, amended: the returned sequence lists the statuses of the
    type-definition requirements first, then those of the service-extension
    requirements, each in the order of the descriptions the workload's
    getter returns, then the statuses of the identity check; the latter
    hold, zero values apart, one status for each identity name, in an order
    that is a permutation of the order of first encounter. *)
Theorem C4_status_order rt a csv :
  exists ids,
    (requirementStatus rt a csv).2
    = map (crdStatus a) (GetAllCRDDescriptions csv)
      ++ map (apiStatus a) (GetAllAPIServiceDescriptions csv)
      ++ ids
    /\ nonzero ids
       ≡ₚ map (identityStatus rt a csv (declaredGrants rt csv))
            (identityNames (declaredGrants rt csv)).
Proof.
  exists (permissionStatus rt a csv).2. split.
  - by rewrite requirementStatus_eq.
  - apply permissionStatus_nonzero.
Qed.

(** *** C5 *)

(** C5: when the install strategy fails to decode, or decodes to something
    other than a deployment, the identity check returns [met = false] and no
    status; the resolver still returns, with [met = false] and the statuses
    of the other requirements. *)
Theorem C5_undecodable_strategy rt a csv :
  (exists err, UnmarshalStrategy rt (InstallStrategy csv) = Err err)
  \/ (exists other, UnmarshalStrategy rt (InstallStrategy csv) = Ok (StrategyOther other)) ->
  permissionStatus rt a csv = (false, [])
  /\ requirementStatus rt a csv
     = (false,
        map (crdStatus a) (GetAllCRDDescriptions csv)
        ++ map (apiStatus a) (GetAllAPIServiceDescriptions csv)).
Proof.
  intros Hd.
  assert (permissionStatus rt a csv = (false, [])) as Hperm.
  { unfold permissionStatus. by destruct Hd as [[err ->]|[other ->]]. }
  split; [done|]. rewrite requirementStatus_eq, Hperm. simpl.
  by rewrite andb_false_r, app_nil_r.
Qed.

Lemma C5_undecodable_strategy_witness :
  let rt := runtimeDecoding (Err (Errorf "unknown strategy")) in
  ((exists err, UnmarshalStrategy rt (InstallStrategy bareCSV) = Err err)
   \/ (exists other,
         UnmarshalStrategy rt (InstallStrategy bareCSV) = Ok (StrategyOther other)))
  /\ permissionStatus rt permissiveOperator bareCSV = (false, [])
  /\ requirementStatus rt permissiveOperator bareCSV = (false, []).
Proof.
  intros rt.
  assert ((exists err, UnmarshalStrategy rt (InstallStrategy bareCSV) = Err err)
          \/ (exists other,
                UnmarshalStrategy rt (InstallStrategy bareCSV) = Ok (StrategyOther other)))
    as Hd.
  { left. exists (Errorf "unknown strategy"). reflexivity. }
  split; [exact Hd|].
  exact (C5_undecodable_strategy rt permissiveOperator bareCSV Hd).
Defined.

(** *** C6 *)

Section Downgrade.

Variable rt : Runtime.
Variable a : Operator.
Variable csv : ClusterServiceVersion.

(** Whatever the map holds, one more grant never turns a status that is not
    Present into Present. *)
Lemma permStep_not_Present namespace (m : gmap string RequirementStatus) met perm k st :
  m !! k = Some st ->
  req_Status st <> RequirementStatusReasonPresent ->
  exists st', (permStep rt a csv namespace (m, met) perm).1 !! k = Some st'
              /\ req_Status st' <> RequirementStatusReasonPresent.
Proof.
  intros Hk Hst. rewrite permStep_eq.
  destruct (decide (ServiceAccountName perm = k)) as [<-|Hne].
  - unfold startStatus. rewrite Hk.
    destruct (GetServiceAccount a (GetNamespace csv) (ServiceAccountName perm)) as [sa|e];
      simpl; rewrite lookup_insert_eq; eexists; (split; [done|]); simpl; [|done].
    by destruct (forallb _ _).
  - exists st.
    destruct (GetServiceAccount a (GetNamespace csv) (ServiceAccountName perm)) as [sa|e];
      simpl; by rewrite lookup_insert_ne.
Qed.


(** A pass against one cluster is a live pass in which the cluster never
    changes. *)
Lemma liveGrants_snapshot gs acc :
  liveGrants rt csv (map (pair a) gs) acc = runGrants rt a csv gs acc.
Proof.
  unfold liveGrants, runGrants. revert acc.
  induction gs as [|g gs IH]; intros acc; simpl; [done|apply IH].
Qed.






End Downgrade.





End OlmSpec.

(* ===================================================================== *)
(** ** Properties of the package-manifest storage *)
(* ===================================================================== *)

Module PackagemanifestSpec.

Import Packagemanifest.

(** *** [nameFor] *)

Lemma nameFor_found fs value :
  RequiresExactMatch (fieldSelectorOf (mkListOptions None fs "")) "metadata.name"
  = (value, true) ->
  nameFor fs = Return (Ok value).
Proof. unfold nameFor, fieldSelectorOf. simpl. by intros ->. Qed.

Lemma nameFor_empty fs :
  (RequiresExactMatch (fieldSelectorOf (mkListOptions None fs "")) "metadata.name").2
  = false ->
  Empty (fieldSelectorOf (mkListOptions None fs "")) = true ->
  nameFor fs = Return (Ok "").
Proof.
  unfold nameFor, fieldSelectorOf. simpl.
  destruct (RequiresExactMatch _ _) as [value found]. simpl. by intros -> ->.
Qed.

Lemma nameFor_unsupported fs r rest :
  (RequiresExactMatch (fieldSelectorOf (mkListOptions None fs "")) "metadata.name").2
  = false ->
  Empty (fieldSelectorOf (mkListOptions None fs "")) = false ->
  Requirements (fieldSelectorOf (mkListOptions None fs "")) = r :: rest ->
  nameFor fs = Return (Err (Errorf ("field label not supported: " +:+ Field r))).
Proof.
  unfold nameFor, fieldSelectorOf. simpl.
  destruct (RequiresExactMatch _ _) as [value found]. simpl. by intros -> -> ->.
Qed.

(** [fs.Requirements()[0]] is out of range when a selector that is not
    empty and requires no exact match has no requirement. *)
Lemma nameFor_out_of_range fs :
  (RequiresExactMatch (fieldSelectorOf (mkListOptions None fs "")) "metadata.name").2
  = false ->
  Empty (fieldSelectorOf (mkListOptions None fs "")) = false ->
  Requirements (fieldSelectorOf (mkListOptions None fs "")) = [] ->
  nameFor fs = Panic.
Proof.
  unfold nameFor, fieldSelectorOf. simpl.
  destruct (RequiresExactMatch _ _) as [value found]. simpl. by intros -> -> ->.
Qed.

(** *** [matches] and the loop of [List] *)

Lemma matches_retained m name namespace ls :
  matches m name namespace ls = true <-> retained ls name namespace m.
Proof.
  unfold matches, retained. rewrite !andb_true_iff, !bool_decide_eq_true.
  unfold NamespaceAll. repeat case_bool_decide; intuition congruence.
Qed.

Lemma fold_matches name namespace ls items acc :
  fold_left
    (fun filtered manifest =>
       if matches manifest name namespace ls then filtered ++ [manifest] else filtered)
    items acc
  = acc ++ filter (retained ls name namespace) items.
Proof.
  revert acc. induction items as [|m items IH]; intros acc; simpl.
  - by rewrite app_nil_r.
  - rewrite IH. destruct (matches m name namespace ls) eqn:Hm.
    + apply matches_retained in Hm. rewrite filter_cons_True by done.
      by rewrite <- app_assoc.
    + rewrite filter_cons_False; [done|]. intros Hr%matches_retained. congruence.
Qed.

(** *** C7 *)

(** C7: when the field selector yields the name filter [name], [List]
    returns the provider's collection for the requested namespace cut down,
    in order, to the records that the spec retains; when the provider
    fails, it returns an empty collection together with the provider's
    error. *)
Theorem C7_List_retains m ctx o name :
  nameFor (FieldSelector o) = Return (Ok name) ->
  (forall res,
     prov_List (prov m) (NamespaceValue ctx) = Ok (Some res) ->
     List m ctx (Some o)
     = Return
         (Some (mkPackageManifestList (ListMeta res)
                  (filter (retained (labelSelectorOf (Some o)) name (NamespaceValue ctx))
                     (Items res))),
          None))
  /\ (forall err,
        prov_List (prov m) (NamespaceValue ctx) = Err err ->
        List m ctx (Some o) = Return (Some emptyPackageManifestList, Some err)).
Proof.
  intros Hname. unfold List. rewrite Hname. split.
  - intros res ->. by rewrite fold_matches.
  - by intros err ->.
Qed.

Lemma C7_List_retains_witness :
  let o := mkListOptions (Some stable) None "" in
  let ctx := mkContext (Some "community") in
  nameFor (FieldSelector o) = Return (Ok "")
  /\ List catalogStorage ctx (Some o)
     = Return (Some (mkPackageManifestList "42" [etcd]), None).
Proof.
  intros o ctx. split; [reflexivity|].
  apply (proj1 (C7_List_retains catalogStorage ctx o "" eq_refl)
           (mkPackageManifestList "42" [etcd; prometheus; vault])).
  reflexivity.
Defined.

(** *** C8 *)

(** C8, as stated, fails on a conjunction: the selector below is not empty
    and filters on [spec.channel], a field other than the name, yet [List]
    and [Watch] return without error, because the selector also requires
    the name "etcd". *)
Lemma C8_counterexample_mixed_selector :
  let fs := andTerm [hasTerm "spec.channel" "alpha"; hasTerm "metadata.name" "etcd"] in
  let o := mkListOptions None (Some fs) "" in
  let ctx := mkContext None in
  Empty fs = false
  /\ Requirements fs
     = [mkRequirement Equals "spec.channel" "alpha";
        mkRequirement Equals "metadata.name" "etcd"]
  /\ List catalogStorage ctx (Some o)
     = Return (Some (mkPackageManifestList "42" [etcd]), None)
  /\ Watch catalogStorage ctx (Some o)
     = Return (Some (NewWatcher "" "etcd" "" labels_Everything catalog), None).
Proof. repeat split. Qed.

(** C8, amended: a field selector that is not empty, does not require an
    exact match on [metadata.name] and has at least one requirement makes
    [List] and [Watch] fail with the error "field label not supported",
    which names the field of the selector's first requirement; a selector
    that is absent, is empty or requires an exact match on [metadata.name],
    whatever else it filters, gives a name filter: [Watch] returns a
    watcher, and any error of [List] is the provider's. *)
Theorem C8_unsupported_field_filter m ctx o :
  (Empty (fieldSelectorOf o) = false ->
   (RequiresExactMatch (fieldSelectorOf o) "metadata.name").2 = false ->
   forall r rest,
     Requirements (fieldSelectorOf o) = r :: rest ->
     List m ctx (Some o)
     = Return (None, Some (Errorf ("field label not supported: " +:+ Field r)))
     /\ Watch m ctx (Some o)
        = Return (None, Some (Errorf ("field label not supported: " +:+ Field r))))
  /\ (Empty (fieldSelectorOf o) = true
      \/ (RequiresExactMatch (fieldSelectorOf o) "metadata.name").2 = true ->
      exists name,
        nameFor (FieldSelector o) = Return (Ok name)
        /\ Watch m ctx (Some o)
           = Return
               (Some (NewWatcher (NamespaceValue ctx) name (ResourceVersion o)
                        (labelSelectorOf (Some o)) (prov m)),
                None)
        /\ forall obj err,
             List m ctx (Some o) = Return (obj, Some err) ->
             prov_List (prov m) (NamespaceValue ctx) = Err err).
Proof.
  assert (fieldSelectorOf o = fieldSelectorOf (mkListOptions None (FieldSelector o) ""))
    as Hfs by done.
  split.
  - intros Hempty Hfound r rest Hreqs. rewrite Hfs in Hempty, Hfound, Hreqs.
    pose proof (nameFor_unsupported _ r rest Hfound Hempty Hreqs) as Hname.
    unfold List, Watch. by rewrite Hname.
  - intros Hok.
    assert (exists name, nameFor (FieldSelector o) = Return (Ok name)) as [name Hname].
    { rewrite Hfs in Hok.
      destruct (RequiresExactMatch _ "metadata.name") as [value [|]] eqn:Hfound.
      - exists value. by apply nameFor_found.
      - exists "". apply nameFor_empty; [by rewrite Hfound|].
        by destruct Hok as [?|?]. }
    exists name. split; [done|]. unfold List, Watch. rewrite Hname.
    split; [done|]. intros obj err.
    by destruct (prov_List (prov m) (NamespaceValue ctx)) as [[res|]|e]; intros [= <- <-].
Qed.

(** Instances of both halves: a filter on [spec.channel] alone is refused,
    and a conjunction that also asks for the name "etcd" is accepted. *)
Lemma C8_unsupported_field_filter_witness :
  let refused := mkListOptions None (Some (hasTerm "spec.channel" "alpha")) "" in
  let accepted :=
    mkListOptions None
      (Some (andTerm [hasTerm "spec.channel" "alpha"; hasTerm "metadata.name" "etcd"])) "" in
  let ctx := mkContext None in
  List catalogStorage ctx (Some refused)
  = Return (None, Some (Errorf "field label not supported: spec.channel"))
  /\ nameFor (FieldSelector accepted) = Return (Ok "etcd").
Proof.
  intros refused accepted ctx. split.
  - exact (proj1 (proj1 (C8_unsupported_field_filter catalogStorage ctx refused)
                    eq_refl eq_refl
                    (mkRequirement Equals "spec.channel" "alpha") [] eq_refl)).
  - destruct (proj2 (C8_unsupported_field_filter catalogStorage ctx accepted)
                (or_intror eq_refl))
      as (name & Hname & _).
    rewrite Hname. f_equal. vm_compute in Hname. congruence.
Defined.

(** *** C10 *)

(** C10: with a nil [options], [List] and [Watch] panic, whatever the
    storage and the request, although the read of the label selector is
    guarded and falls back to [labels.Everything]. *)
Theorem C10_nil_options_panic m ctx :
  List m ctx None = Panic
  /\ Watch m ctx None = Panic
  /\ labelSelectorOf None = labels_Everything.
Proof. split; [|split]; reflexivity. Qed.

(** *** C9: the watcher *)

Section Watcher.

Variable w : PackageManifestWatcher.

Lemma Run_snoc changes sigs sig :
  Run w changes (sigs ++ [sig]) = watcherStep w (Run w changes sigs) sig.
Proof. unfold Run. by rewrite fold_left_app. Qed.

Lemma passing_snoc changes e :
  passing w (changes ++ [e])
  = passing w changes ++ (if keeps w (ev_Object e) then [e] else []).
Proof.
  unfold passing. rewrite filter_app. f_equal.
  destruct (keeps w (ev_Object e)) eqn:He.
  - by rewrite filter_cons_True.
  - rewrite filter_cons_False; [done|]. congruence.
Qed.

Lemma invariant_subscribe changes : invariant w changes (subscribe w changes).
Proof. exists 0, []. by repeat split. Qed.

Lemma invariant_step changes s sig :
  invariant w changes s -> invariant w changes (watcherStep w s sig).
Proof.
  intros (n & consumed & Hout & Hpend & Hfeed & Hinit & Hstream & Hlive).
  destruct s as [ph pend fd out]. simpl in *. unfold watcherStep. simpl.
  destruct ph, sig; simpl.
  - (* Initializing, Proceed *)
    specialize (Hinit eq_refl). subst consumed.
    destruct pend as [|m rest].
    + exists n, []. by repeat split.
    + assert (snapshot w !! n = Some m) as Hn.
      { rewrite <- (Nat.add_0_r n), <- lookup_drop, <- Hpend. done. }
      exists (S n), []. simpl. repeat split; try done.
      * rewrite Hout, (take_S_r _ _ _ Hn). unfold replay, passing. simpl.
        by rewrite !app_nil_r, map_app.
      * rewrite (drop_S _ _ _ Hn) in Hpend. congruence.
  - (* Initializing, Cancel *)
    exists n, consumed. by repeat split.
  - (* Streaming, Proceed *)
    specialize (Hstream eq_refl). subst pend.
    destruct fd as [|e rest].
    + exists n, consumed. by repeat split.
    + assert (changes = (consumed ++ [e]) ++ rest) as Hfeed'.
      { by rewrite <- app_assoc. }
      destruct (keeps w (ev_Object e)) eqn:He; exists n, (consumed ++ [e]); simpl;
        rewrite passing_snoc, He; repeat split; try done.
      * by rewrite Hout, app_assoc.
      * by rewrite Hout, app_nil_r.
  - (* Streaming, Cancel *)
    exists n, consumed. by repeat split.
  - exists n, consumed. by repeat split.
  - exists n, consumed. by repeat split.
Qed.

Lemma Run_invariant changes sigs : invariant w changes (Run w changes sigs).
Proof.
  induction sigs as [|sig sigs IH] using rev_ind.
  - apply invariant_subscribe.
  - rewrite Run_snoc. by apply invariant_step.
Qed.

(** *** A watcher that is never cancelled *)

Lemma proceed_closed pend fd out k :
  fold_left (watcherStep w) (replicate k Proceed) (mkWatcherState Closed pend fd out)
  = mkWatcherState Closed pend fd out.
Proof. induction k as [|k IH]; [done|]. simpl. apply IH. Qed.

Lemma proceed_streaming fd out k :
  emitted
    (fold_left (watcherStep w) (replicate k Proceed) (mkWatcherState Streaming [] fd out))
  = out ++ passing w (take k fd).
Proof.
  revert fd out. induction k as [|k IH]; intros fd out.
  - simpl. by rewrite take_0, app_nil_r.
  - destruct fd as [|e rest]; cbn [replicate fold_left].
    + unfold watcherStep at 2. simpl. rewrite proceed_closed. simpl.
      by rewrite app_nil_r.
    + unfold watcherStep at 2. simpl. unfold passing.
      destruct (keeps w (ev_Object e)) eqn:He; rewrite IH.
      * rewrite filter_cons_True by done. by rewrite <- app_assoc.
      * rewrite filter_cons_False; [done|]. congruence.
Qed.

Lemma proceed_initializing pend fd out k :
  emitted
    (fold_left (watcherStep w) (replicate k Proceed)
       (mkWatcherState Initializing pend fd out))
  = out ++ replay (take k pend) ++ passing w (take (k - S (length pend)) fd).
Proof.
  revert out k. induction pend as [|m rest IH]; intros out k.
  - destruct k as [|k]; [simpl; by rewrite app_nil_r|].
    cbn [replicate fold_left]. unfold watcherStep at 2. simpl.
    by rewrite proceed_streaming, Nat.sub_0_r.
  - destruct k as [|k]; [simpl; by rewrite app_nil_r|].
    cbn [replicate fold_left]. unfold watcherStep at 2. simpl.
    rewrite IH. by rewrite <- app_assoc.
Qed.

End Watcher.

(** C9: whatever the signals a watcher receives, the events it has emitted
    are the synthetic Added events of a prefix of the snapshot followed by
    the changes of the feed, among those consumed, that pass the filter; and
    if any change of the feed was consumed, the whole snapshot was replayed
    before. A watcher that is not cancelled has, after [k] steps, replayed
    the first [k] records of the snapshot, all of them from
    [length (snapshot w)] steps on, whatever the feed delivers. *)
Theorem C9_replay_before_live w changes :
  (forall sigs,
     exists n consumed rest,
       changes = consumed ++ rest
       /\ emitted (Run w changes sigs)
          = replay (take n (snapshot w)) ++ passing w consumed
       /\ (consumed <> [] -> take n (snapshot w) = snapshot w))
  /\ (forall k,
        emitted (Run w changes (replicate k Proceed))
        = replay (take k (snapshot w))
          ++ passing w (take (k - S (length (snapshot w))) changes)).
Proof.
  split.
  - intros sigs.
    destruct (Run_invariant w changes sigs)
      as (n & consumed & Hout & Hpend & Hfeed & _ & _ & Hlive).
    exists n, consumed, (feed (Run w changes sigs)). repeat split; try done.
    intros Hconsumed. apply Hlive in Hconsumed. rewrite Hpend in Hconsumed.
    rewrite <- (take_drop n (snapshot w)) at 2. by rewrite Hconsumed, app_nil_r.
  - intros k. unfold Run, subscribe. by rewrite proceed_initializing.
Qed.

(** A subscription to the concrete catalog whose feed delivers nothing: the
    two matching records are replayed. *)
Example Run_catalog :
  emitted
    (Run (NewWatcher "community" "" "0" labels_Everything catalog) []
       [Proceed; Proceed; Proceed; Proceed])
  = [mkEvent Added etcd; mkEvent Added prometheus].
Proof. reflexivity. Qed.

End PackagemanifestSpec.

(* ===================================================================== *)
(** ** Further properties of the requirement resolver *)
(* ===================================================================== *)

Module OlmExtra.

Import Olm OlmSpec.

(** *** Tools *)

Lemma lookup_List_map {A B} (f : A -> B) (l : list A) (i : nat) :
  map f l !! i = f <$> l !! i.
Proof. apply (list_lookup_fmap f l i). Qed.

Lemma fold_left_pointwise {A B} (f g : A -> B -> A) (l : list B) (acc : A) :
  (forall acc x, f acc x = g acc x) -> fold_left f l acc = fold_left g l acc.
Proof.
  intros Hfg. revert acc. induction l as [|x l IH]; intros acc; simpl; [done|].
  by rewrite Hfg, IH.
Qed.

Lemma ruleOk_iff rt a csv sa nr :
  ruleOk rt a csv sa nr = true
  <-> (exists e, json_Marshal rt nr.2 = Err e)
      \/ RuleSatisfied a csv sa nr.1 nr.2 = (true, None).
Proof.
  unfold ruleOk. destruct (json_Marshal rt nr.2) as [s|e].
  - destruct (RuleSatisfied a csv sa nr.1 nr.2) as [[|] [err|]];
      (split; [try done; intros _; by right | by intros [[e ?]|?]]).
  - split; [|done]. intros _. left. by exists e.
Qed.

Lemma grantRules_elem_iff gs k nr :
  nr ∈ grantRules gs k
  <-> exists g, g ∈ gs /\ grantName g = k /\ nr.1 = g.2 /\ nr.2 ∈ Rules g.1.
Proof.
  unfold grantRules. rewrite list_elem_of_In, in_flat_map. split.
  - intros (g & Hg & Hnr). exists g. split; [by apply list_elem_of_In|].
    case_bool_decide as Hk; [|by apply list_elem_of_In, elem_of_nil in Hnr].
    apply list_elem_of_In, elem_of_List_map in Hnr as (rule & -> & Hrule). done.
  - intros (g & Hg & Hk & Hns & Hrule). exists g. split; [by apply list_elem_of_In|].
    rewrite bool_decide_eq_true_2 by done.
    apply list_elem_of_In, elem_of_List_map. exists nr.2. split; [|done].
    destruct nr as [ns rule]. simpl in *. by subst ns.
Qed.

Lemma passGrants_elem csv d g :
  g ∈ passGrants csv d
  <-> (exists perm, perm ∈ Permissions d /\ g = (perm, GetNamespace csv))
      \/ (exists perm, perm ∈ ClusterPermissions d /\ g = (perm, NamespaceAll)).
Proof.
  unfold passGrants. rewrite elem_of_app, !elem_of_List_map.
  split; (intros [(perm & ? & ?)|(perm & ? & ?)]; [left|right]; by exists perm).
Qed.

(** The status of every granted identity is in the returned sequence. *)
Lemma identityStatus_returned rt a csv d k :
  UnmarshalStrategy rt (InstallStrategy csv) = Ok (StrategyDeployment d) ->
  k ∈ map grantName (passGrants csv d) ->
  identityStatus rt a csv (passGrants csv d) k ∈ (permissionStatus rt a csv).2.
Proof.
  intros Hd Hk. destruct (permissionStatus_statuses rt a csv d Hd) as (ids & -> & Hids).
  apply elem_of_app. right.
  apply (elem_of_Permutation_proper _ _ _ Hids), elem_of_List_map.
  exists k. split; [done|]. unfold identityNames. by apply elem_of_remove_dups.
Qed.

(** *** [isGVKRegistered] *)

(** [isGVKRegistered] returns nil exactly when discovery answers and lists,
    under the group-version, a resource of the kind; an error of discovery
    is returned as it is, and the only other error is the not-found error of
    the three arguments. *)
Theorem isGVKRegistered_outcomes a group version kind :
  (isGVKRegistered a group version kind = None
   <-> exists groups g r,
         ServerResources a = Ok groups
         /\ g ∈ groups
         /\ GroupVersion g = GroupVersion_String group version
         /\ r ∈ APIResources g
         /\ res_Kind r = kind)
  /\ (forall err, ServerResources a = Err err ->
        isGVKRegistered a group version kind = Some err)
  /\ (forall err, isGVKRegistered a group version kind = Some err ->
        ServerResources a = Err err
        \/ err = GroupVersionKindNotFoundError group version kind).
Proof.
  unfold isGVKRegistered. destruct (ServerResources a) as [groups|e].
  - destruct (existsb _ groups) eqn:Hex.
    + split; [|split; [done|done]]. split; [|done]. intros _.
      apply existsb_exists in Hex as (g & Hg & Hgr).
      apply andb_true_iff in Hgr as [Hgv Hr].
      apply existsb_exists in Hr as (r & Hr & Hkind).
      apply bool_decide_eq_true in Hgv, Hkind.
      exists groups, g, r. repeat split; try done; by apply list_elem_of_In.
    + split; [|split; [done|]].
      * split; [done|]. intros (groups' & g & r & [= <-] & Hg & Hgv & Hr & Hkind).
        assert (existsb
                  (fun g => bool_decide (GroupVersion g = GroupVersion_String group version)
                            && existsb (fun r => bool_decide (res_Kind r = kind))
                                 (APIResources g)) groups = true) as Hex'; [|congruence].
        apply existsb_exists. exists g. split; [by apply list_elem_of_In|].
        apply andb_true_iff. split; [by apply bool_decide_eq_true|].
        apply existsb_exists. exists r. split; [by apply list_elem_of_In|].
        by apply bool_decide_eq_true.
      * intros err [= <-]. by right.
  - split; [|split].
    + split; [done|]. by intros (groups & g & r & ? & _).
    + by intros err [= ->].
    + intros err [= ->]. by left.
Qed.

(** *** The statuses of type definitions and service extensions *)

(** The status of the [i]-th type-definition requirement is the [i]-th of
    the returned sequence: Present with the uid of the definition when the
    lookup succeeds; NotPresent, without uid or dependents, when it fails,
    and then [met] is false. *)
Theorem requirementStatus_crd_entry rt a csv i r :
  GetAllCRDDescriptions csv !! i = Some r ->
  (forall crd,
     CustomResourceDefinitions_Get a (crd_Name r) = Ok crd ->
     (requirementStatus rt a csv).2 !! i
     = Some (mkRequirementStatus "apiextensions.k8s.io" "v1beta1"
               "CustomResourceDefinition" (crd_Name r) "Present" (crd_GetUID crd) []))
  /\ (forall err,
        CustomResourceDefinitions_Get a (crd_Name r) = Err err ->
        (requirementStatus rt a csv).2 !! i
        = Some (mkRequirementStatus "apiextensions.k8s.io" "v1beta1"
                  "CustomResourceDefinition" (crd_Name r) "NotPresent" "" [])
        /\ (requirementStatus rt a csv).1 = false).
Proof.
  intros Hr. rewrite requirementStatus_eq. simpl.
  assert (forall rest, (map (crdStatus a) (GetAllCRDDescriptions csv) ++ rest) !! i
                       = Some (crdStatus a r)) as Hentry.
  { intros rest. rewrite lookup_app_l.
    - by rewrite lookup_List_map, Hr.
    - rewrite length_map. by apply lookup_lt_Some in Hr. }
  split.
  - intros crd Hcrd. rewrite Hentry. unfold crdStatus. by rewrite Hcrd.
  - intros err Herr. rewrite Hentry. unfold crdStatus. rewrite Herr.
    split; [done|].
    destruct (forallb (crdPresent a) (GetAllCRDDescriptions csv)) eqn:Hall; [|done].
    rewrite forallb_forall in Hall.
    assert (crdPresent a r = true) as Hpresent.
    { apply Hall, list_elem_of_In. by apply list_elem_of_lookup_2 in Hr. }
    unfold crdPresent in Hpresent. by rewrite Herr in Hpresent.
Qed.

Lemma requirementStatus_crd_entry_witness :
  let rt := runtimeDecoding (Ok (StrategyDeployment noIdentity)) in
  GetAllCRDDescriptions etcdCSV !! 1 = Some (mkCRDDescription "backups.example.com")
  /\ (requirementStatus rt servingOperator etcdCSV).2 !! 1
     = Some (mkRequirementStatus "apiextensions.k8s.io" "v1beta1"
               "CustomResourceDefinition" "backups.example.com" "NotPresent" "" [])
  /\ (requirementStatus rt servingOperator etcdCSV).1 = false.
Proof.
  intros rt. split; [reflexivity|].
  apply (proj2 (requirementStatus_crd_entry rt servingOperator etcdCSV 1
                  (mkCRDDescription "backups.example.com") eq_refl)
           (Errorf "not found")).
  reflexivity.
Defined.

(** The status of the [j]-th service-extension requirement follows those of
    the type definitions. It is named version.name, and is Present with the
    uid of the registration when the kind is registered in discovery under
    the requirement's name as group, the registration exists and is
    available; it is NotPresent, without uid or dependents, when any of the
    three fails, and then [met] is false. *)
Theorem requirementStatus_api_entry rt a csv j r :
  GetAllAPIServiceDescriptions csv !! j = Some r ->
  (forall apiService,
     isGVKRegistered a (api_Name r) (api_Version r) (api_Kind r) = None ->
     APIServices_Get a (api_Version r +:+ "." +:+ api_Name r) = Ok apiService ->
     isAPIServiceAvailable a apiService = true ->
     (requirementStatus rt a csv).2 !! (length (GetAllCRDDescriptions csv) + j)
     = Some (mkRequirementStatus "apiregistration.k8s.io" "v1" "APIService"
               (api_Version r +:+ "." +:+ api_Name r) "Present"
               (apiservice_GetUID apiService) []))
  /\ ((exists err, isGVKRegistered a (api_Name r) (api_Version r) (api_Kind r) = Some err)
      \/ (exists err, APIServices_Get a (api_Version r +:+ "." +:+ api_Name r) = Err err)
      \/ (exists apiService,
            APIServices_Get a (api_Version r +:+ "." +:+ api_Name r) = Ok apiService
            /\ isAPIServiceAvailable a apiService = false) ->
      (requirementStatus rt a csv).2 !! (length (GetAllCRDDescriptions csv) + j)
      = Some (mkRequirementStatus "apiregistration.k8s.io" "v1" "APIService"
                (api_Version r +:+ "." +:+ api_Name r) "NotPresent" "" [])
      /\ (requirementStatus rt a csv).1 = false).
Proof.
  intros Hr. rewrite requirementStatus_eq. simpl.
  assert (forall rest,
            (map (crdStatus a) (GetAllCRDDescriptions csv)
             ++ map (apiStatus a) (GetAllAPIServiceDescriptions csv) ++ rest)
            !! (length (GetAllCRDDescriptions csv) + j)
            = Some (apiStatus a r)) as Hentry.
  { intros rest. rewrite lookup_app_r by (rewrite length_map; lia).
    rewrite length_map, Nat.add_comm, Nat.add_sub. rewrite lookup_app_l.
    - by rewrite lookup_List_map, Hr.
    - rewrite length_map. by apply lookup_lt_Some in Hr. }
  split.
  - intros apiService Hgvk Hget Havail. rewrite Hentry.
    unfold apiStatus, apiAvailable. by rewrite Hgvk, Hget, Havail.
  - intros Hfail. rewrite Hentry.
    assert (apiAvailable a r = None) as Hnone.
    { unfold apiAvailable.
      destruct Hfail as [[err ->]|[[err ->]|(apiService & -> & ->)]]; [done|..];
        by destruct (isGVKRegistered a _ _ _). }
    unfold apiStatus. rewrite Hnone. split; [done|].
    destruct (forallb (apiPresent a) (GetAllAPIServiceDescriptions csv)) eqn:Hall;
      [|by rewrite andb_false_r].
    rewrite forallb_forall in Hall.
    assert (apiPresent a r = true) as Hpresent.
    { apply Hall, list_elem_of_In. by apply list_elem_of_lookup_2 in Hr. }
    unfold apiPresent in Hpresent. rewrite Hnone in Hpresent.
    by apply bool_decide_eq_true in Hpresent.
Qed.

Lemma requirementStatus_api_entry_witness :
  let rt := runtimeDecoding (Ok (StrategyDeployment noIdentity)) in
  GetAllAPIServiceDescriptions etcdCSV !! 0
  = Some (mkAPIServiceDescription "packages.apps.redhat.com" "v1alpha1" "PackageManifest")
  /\ (requirementStatus rt servingOperator etcdCSV).2 !! 2
     = Some (mkRequirementStatus "apiregistration.k8s.io" "v1" "APIService"
               "v1alpha1.packages.apps.redhat.com" "Present" "uid-2" []).
Proof.
  intros rt. split; [reflexivity|].
  apply (proj1 (requirementStatus_api_entry rt servingOperator etcdCSV 0
                  (mkAPIServiceDescription "packages.apps.redhat.com" "v1alpha1"
                     "PackageManifest") eq_refl)
           (mkAPIService "v1alpha1.packages.apps.redhat.com" "uid-2"));
    reflexivity.
Defined.

(** *** When the requirements are met *)

(** For a deployment strategy, the identity check is met exactly when, for
    every grant of both lists, the service account exists in the workload's
    namespace and each of its rules is satisfied without error, in the
    workload's namespace for a namespaced grant and in all namespaces for a
    cluster-wide one; a rule that cannot be encoded does not count against
    it. *)
Theorem permissionStatus_met_iff rt a csv d :
  UnmarshalStrategy rt (InstallStrategy csv) = Ok (StrategyDeployment d) ->
  (permissionStatus rt a csv).1 = true
  <-> (forall perm, perm ∈ Permissions d ->
         exists sa,
           GetServiceAccount a (GetNamespace csv) (ServiceAccountName perm) = Ok sa
           /\ forall rule, rule ∈ Rules perm ->
                (exists e, json_Marshal rt rule = Err e)
                \/ RuleSatisfied a csv sa (GetNamespace csv) rule = (true, None))
      /\ (forall perm, perm ∈ ClusterPermissions d ->
            exists sa,
              GetServiceAccount a (GetNamespace csv) (ServiceAccountName perm) = Ok sa
              /\ forall rule, rule ∈ Rules perm ->
                   (exists e, json_Marshal rt rule = Err e)
                   \/ RuleSatisfied a csv sa NamespaceAll rule = (true, None)).
Proof.
  intros Hd. rewrite (permissionStatus_deployment rt a csv d Hd). simpl.
  rewrite runGrants_met.
  transitivity
    (forall g, g ∈ passGrants csv d ->
       exists sa,
         GetServiceAccount a (GetNamespace csv) (grantName g) = Ok sa
         /\ forall rule, rule ∈ Rules g.1 ->
              (exists e, json_Marshal rt rule = Err e)
              \/ RuleSatisfied a csv sa g.2 rule = (true, None)).
  - split.
    + intros H g Hg.
      assert (grantName g ∈ map grantName (passGrants csv d)) as Hk.
      { apply elem_of_List_map. by exists g. }
      apply H, identityStatus_Present in Hk as (sa & Hsa & Hall).
      exists sa. split; [done|]. intros rule Hrule.
      rewrite forallb_forall in Hall.
      apply (ruleOk_iff rt a csv sa (g.2, rule)), Hall, list_elem_of_In,
        grantRules_elem_iff.
      by exists g.
    + intros H k (g & -> & Hg)%elem_of_List_map.
      destruct (H g Hg) as (sa & Hsa & _).
      apply identityStatus_Present. exists sa. split; [done|].
      apply forallb_forall. intros nr Hnr%list_elem_of_In.
      apply grantRules_elem_iff in Hnr as (g' & Hg' & Hk & Hns & Hrule).
      destruct (H g' Hg') as (sa' & Hsa' & Hrules). rewrite Hk, Hsa in Hsa'.
      injection Hsa' as <-. apply ruleOk_iff. rewrite Hns. by apply Hrules.
  - split.
    + intros H. split; intros perm Hperm.
      * apply (H (perm, GetNamespace csv)), passGrants_elem. left. by exists perm.
      * apply (H (perm, NamespaceAll)), passGrants_elem. right. by exists perm.
    + intros [Hns Hall] g [(perm & Hperm & ->)|(perm & Hperm & ->)]%passGrants_elem.
      * by apply Hns.
      * by apply Hall.
Qed.

Lemma permissionStatus_met_iff_witness :
  let rt := runtimeDecoding (Ok (StrategyDeployment oneIdentity)) in
  UnmarshalStrategy rt (InstallStrategy bareCSV) = Ok (StrategyDeployment oneIdentity)
  /\ (permissionStatus rt namespacedOperator bareCSV).1 = false
  /\ ~ (forall perm, perm ∈ ClusterPermissions oneIdentity ->
          exists sa,
            GetServiceAccount namespacedOperator (GetNamespace bareCSV)
              (ServiceAccountName perm) = Ok sa
            /\ forall rule, rule ∈ Rules perm ->
                 (exists e, json_Marshal rt rule = Err e)
                 \/ RuleSatisfied namespacedOperator bareCSV sa NamespaceAll rule
                    = (true, None)).
Proof.
  intros rt. split; [reflexivity|]. split; [reflexivity|]. intros Hall.
  assert ((permissionStatus rt namespacedOperator bareCSV).1 = true) as Hmet;
    [|by vm_compute in Hmet].
  apply (permissionStatus_met_iff rt namespacedOperator bareCSV oneIdentity eq_refl).
  split; [|exact Hall].
  intros perm ->%list_elem_of_singleton. eexists. split; [reflexivity|].
  intros rule ->%list_elem_of_singleton. by right.
Defined.

(** The resolver reports [met] exactly when every type definition is found,
    every service extension is registered, exists and is available, and the
    identity check is met. *)
Theorem requirementStatus_met_iff rt a csv :
  (requirementStatus rt a csv).1 = true
  <-> (forall r, r ∈ GetAllCRDDescriptions csv ->
         exists crd, CustomResourceDefinitions_Get a (crd_Name r) = Ok crd)
      /\ (forall r, r ∈ GetAllAPIServiceDescriptions csv ->
            isGVKRegistered a (api_Name r) (api_Version r) (api_Kind r) = None
            /\ exists apiService,
                 APIServices_Get a (api_Version r +:+ "." +:+ api_Name r) = Ok apiService
                 /\ isAPIServiceAvailable a apiService = true)
      /\ (permissionStatus rt a csv).1 = true.
Proof.
  rewrite requirementStatus_eq. simpl. rewrite !andb_true_iff, !forallb_forall.
  assert (forall r, crdPresent a r = true
                    <-> exists crd, CustomResourceDefinitions_Get a (crd_Name r) = Ok crd)
    as Hcrd.
  { intros r. unfold crdPresent.
    destruct (CustomResourceDefinitions_Get a (crd_Name r)) as [crd|e].
    - split; [intros _; by exists crd|done].
    - split; [done|by intros [crd ?]]. }
  assert (forall r, apiPresent a r = true
                    <-> isGVKRegistered a (api_Name r) (api_Version r) (api_Kind r) = None
                        /\ exists apiService,
                             APIServices_Get a (api_Version r +:+ "." +:+ api_Name r)
                             = Ok apiService
                             /\ isAPIServiceAvailable a apiService = true) as Hapi.
  { intros r. unfold apiPresent, apiAvailable. rewrite bool_decide_eq_true.
    destruct (isGVKRegistered a _ _ _) as [e|]; [split; [done|by intros [? _]]|].
    destruct (APIServices_Get a _) as [apiService|e].
    - destruct (isAPIServiceAvailable a apiService) eqn:Havail; split; try done.
      + intros _. split; [done|]. by exists apiService.
      + intros [_ (apiService' & [= <-] & ?)]. congruence.
    - split; [done|]. by intros [_ (apiService & ? & _)]. }
  split.
  - intros [[H1 H2] H3]. split; [|split; [|done]].
    + intros r Hr. by apply Hcrd, H1, list_elem_of_In.
    + intros r Hr. by apply Hapi, H2, list_elem_of_In.
  - intros (H1 & H2 & H3). split; [split|done].
    + intros r Hr. by apply Hcrd, H1, list_elem_of_In.
    + intros r Hr. by apply Hapi, H2, list_elem_of_In.
Qed.

(** *** The statuses of identities *)

(** A granted identity whose service account cannot be fetched gets, in the
    returned sequence, the status NotPresent without any dependent, whatever
    rules both lists grant it, and the identity check is not met. *)
Theorem permissionStatus_missing_account rt a csv d k err :
  UnmarshalStrategy rt (InstallStrategy csv) = Ok (StrategyDeployment d) ->
  k ∈ map grantName (passGrants csv d) ->
  GetServiceAccount a (GetNamespace csv) k = Err err ->
  mkRequirementStatus "" "v1" "ServiceAccount" k "NotPresent" "" []
    ∈ (permissionStatus rt a csv).2
  /\ (permissionStatus rt a csv).1 = false.
Proof.
  intros Hd Hk Hsa. split.
  - pose proof (identityStatus_returned rt a csv d k Hd Hk) as Hin.
    unfold identityStatus in Hin. by rewrite Hsa in Hin.
  - rewrite (permissionStatus_deployment rt a csv d Hd). simpl.
    destruct (runGrants rt a csv (passGrants csv d) (∅, true)).2 eqn:Hmet; [|done].
    pose proof (proj1 (runGrants_met rt a csv _) Hmet k Hk) as Hpresent.
    apply identityStatus_Present in Hpresent as (sa & Hsa' & _). congruence.
Qed.

Lemma permissionStatus_missing_account_witness :
  let rt := runtimeDecoding (Ok (StrategyDeployment ghostIdentity)) in
  UnmarshalStrategy rt (InstallStrategy bareCSV) = Ok (StrategyDeployment ghostIdentity)
  /\ "ghost" ∈ map grantName (passGrants bareCSV ghostIdentity)
  /\ GetServiceAccount servingOperator (GetNamespace bareCSV) "ghost"
     = Err (Errorf "not found")
  /\ mkRequirementStatus "" "v1" "ServiceAccount" "ghost" "NotPresent" "" []
       ∈ (permissionStatus rt servingOperator bareCSV).2
  /\ (permissionStatus rt servingOperator bareCSV).1 = false.
Proof.
  intros rt.
  assert ("ghost" ∈ map grantName (passGrants bareCSV ghostIdentity)) as Hk by by left.
  split; [reflexivity|]. split; [exact Hk|]. split; [reflexivity|].
  exact (permissionStatus_missing_account rt servingOperator bareCSV ghostIdentity
           "ghost" (Errorf "not found") eq_refl Hk eq_refl).
Defined.

(** A granted identity whose service account exists gets, in the returned
    sequence, a status with one dependent for each rule granted to it, those
    of the namespaced grants before those of the cluster-wide grants, each
    in declaration order; the status is Present when no rule is unsatisfied
    and PresentNotSatisfied otherwise. *)
Theorem permissionStatus_existing_account rt a csv d k sa :
  UnmarshalStrategy rt (InstallStrategy csv) = Ok (StrategyDeployment d) ->
  k ∈ map grantName (passGrants csv d) ->
  GetServiceAccount a (GetNamespace csv) k = Ok sa ->
  mkRequirementStatus "" "v1" "ServiceAccount" k
    (if forallb (ruleOk rt a csv sa)
          (grantRules (map (fun perm => (perm, GetNamespace csv)) (Permissions d)) k
           ++ grantRules (map (fun perm => (perm, NamespaceAll)) (ClusterPermissions d)) k)
     then "Present" else "PresentNotSatisfied")
    ""
    (map (ruleDependent rt a csv sa)
       (grantRules (map (fun perm => (perm, GetNamespace csv)) (Permissions d)) k)
     ++ map (ruleDependent rt a csv sa)
          (grantRules (map (fun perm => (perm, NamespaceAll)) (ClusterPermissions d)) k))
    ∈ (permissionStatus rt a csv).2.
Proof.
  intros Hd Hk Hsa.
  pose proof (identityStatus_returned rt a csv d k Hd Hk) as Hin.
  unfold identityStatus in Hin. rewrite Hsa in Hin. unfold passGrants in Hin.
  by rewrite grantRules_app, map_app in Hin.
Qed.

Lemma permissionStatus_existing_account_witness :
  let rt := runtimeDecoding (Ok (StrategyDeployment oneIdentity)) in
  UnmarshalStrategy rt (InstallStrategy bareCSV) = Ok (StrategyDeployment oneIdentity)
  /\ "sa" ∈ map grantName (passGrants bareCSV oneIdentity)
  /\ GetServiceAccount namespacedOperator (GetNamespace bareCSV) "sa"
     = Ok (mkServiceAccount "ns" "sa")
  /\ mkRequirementStatus "" "v1" "ServiceAccount" "sa" "PresentNotSatisfied" ""
       [mkDependentStatus "rbac.authorization.k8s.io" "v1beta1" "PolicyRule"
          "Satisfied" "rule raw:{}";
        mkDependentStatus "rbac.authorization.k8s.io" "v1beta1" "PolicyRule"
          "NotSatisfied" "rule raw:{}"]
       ∈ (permissionStatus rt namespacedOperator bareCSV).2.
Proof.
  intros rt.
  assert ("sa" ∈ map grantName (passGrants bareCSV oneIdentity)) as Hk by by left.
  split; [reflexivity|]. split; [exact Hk|]. split; [reflexivity|].
  exact (permissionStatus_existing_account rt namespacedOperator bareCSV oneIdentity
           "sa" (mkServiceAccount "ns" "sa") eq_refl Hk eq_refl).
Defined.

(** A rule that is unsatisfied, or whose evaluation returns an error even
    with a positive answer, marks its identity PresentNotSatisfied in the
    returned sequence and makes the identity check unmet. *)
Theorem permissionStatus_unsatisfied_rule rt a csv d g sa rule s :
  UnmarshalStrategy rt (InstallStrategy csv) = Ok (StrategyDeployment d) ->
  g ∈ passGrants csv d ->
  GetServiceAccount a (GetNamespace csv) (grantName g) = Ok sa ->
  rule ∈ Rules g.1 ->
  json_Marshal rt rule = Ok s ->
  RuleSatisfied a csv sa g.2 rule <> (true, None) ->
  (exists st, st ∈ (permissionStatus rt a csv).2
              /\ req_Name st = grantName g
              /\ req_Kind st = "ServiceAccount"
              /\ req_Status st = RequirementStatusReasonPresentNotSatisfied)
  /\ (permissionStatus rt a csv).1 = false.
Proof.
  intros Hd Hg Hsa Hrule Hs Hsat.
  assert (grantName g ∈ map grantName (passGrants csv d)) as Hk.
  { apply elem_of_List_map. by exists g. }
  assert (forallb (ruleOk rt a csv sa) (grantRules (passGrants csv d) (grantName g))
          = false) as Hall.
  { destruct (forallb _ _) eqn:Hall; [|done]. rewrite forallb_forall in Hall.
    assert (ruleOk rt a csv sa (g.2, rule) = true) as Hok.
    { apply Hall, list_elem_of_In, grantRules_elem_iff. by exists g. }
    apply ruleOk_iff in Hok as [[e He]|Hok]; simpl in *; congruence. }
  split.
  - exists (identityStatus rt a csv (passGrants csv d) (grantName g)).
    split; [by apply identityStatus_returned|].
    unfold identityStatus. rewrite Hsa, Hall. done.
  - rewrite (permissionStatus_deployment rt a csv d Hd). simpl.
    destruct (runGrants rt a csv (passGrants csv d) (∅, true)).2 eqn:Hmet; [|done].
    pose proof (proj1 (runGrants_met rt a csv _) Hmet _ Hk) as Hpresent.
    apply identityStatus_Present in Hpresent as (sa' & Hsa' & Hall'). congruence.
Qed.

Lemma permissionStatus_unsatisfied_rule_witness :
  let rt := runtimeDecoding (Ok (StrategyDeployment oneIdentity)) in
  (exists st, st ∈ (permissionStatus rt namespacedOperator bareCSV).2
              /\ req_Name st = "sa"
              /\ req_Kind st = "ServiceAccount"
              /\ req_Status st = RequirementStatusReasonPresentNotSatisfied)
  /\ (permissionStatus rt namespacedOperator bareCSV).1 = false.
Proof.
  intros rt.
  apply (permissionStatus_unsatisfied_rule rt namespacedOperator bareCSV oneIdentity
           (mkPermissions "sa" [listNodes], NamespaceAll)
           (mkServiceAccount "ns" "sa") listNodes "{}").
  - reflexivity.
  - right. by left.
  - reflexivity.
  - by left.
  - reflexivity.
  - by vm_compute.
Defined.

(** Zero values apart, the statuses of the identity check bear the names of
    the granted identities, each name once, however often and in whichever
    of the two lists the identity is granted. *)
Theorem permissionStatus_one_status_per_name rt a csv :
  NoDup (map req_Name (nonzero (permissionStatus rt a csv).2))
  /\ forall k,
       k ∈ map req_Name (nonzero (permissionStatus rt a csv).2)
       <-> k ∈ map grantName (declaredGrants rt csv).
Proof.
  assert (map req_Name (nonzero (permissionStatus rt a csv).2)
          ≡ₚ identityNames (declaredGrants rt csv)) as Hnames.
  { rewrite (Permutation_map req_Name (permissionStatus_nonzero rt a csv)).
    rewrite map_map.
    replace (map _ (identityNames (declaredGrants rt csv)))
      with (map (fun k : string => k) (identityNames (declaredGrants rt csv))).
    - by rewrite map_id.
    - apply map_ext. intros k. unfold identityStatus.
      by destruct (GetServiceAccount a (GetNamespace csv) k). }
  split.
  - apply (NoDup_Permutation_proper _ _ Hnames). apply NoDup_remove_dups.
  - intros k. rewrite (elem_of_Permutation_proper k _ _ Hnames).
    apply elem_of_remove_dups.
Qed.

(** The status sequence of a deployment strategy is twice as long as there
    are distinct identity names: it starts with one zero value for each
    name, and the statuses of the identities follow in the order of the map
    range. *)
Theorem permissionStatus_zero_values rt a csv d :
  UnmarshalStrategy rt (InstallStrategy csv) = Ok (StrategyDeployment d) ->
  length (permissionStatus rt a csv).2 = 2 * length (identityNames (passGrants csv d))
  /\ take (length (identityNames (passGrants csv d))) (permissionStatus rt a csv).2
     = replicate (length (identityNames (passGrants csv d))) zeroRequirementStatus
  /\ drop (length (identityNames (passGrants csv d))) (permissionStatus rt a csv).2
     ≡ₚ map (identityStatus rt a csv (passGrants csv d))
          (identityNames (passGrants csv d)).
Proof.
  intros Hd. rewrite (permissionStatus_deployment rt a csv d Hd). simpl.
  rewrite collectStatuses_eq, runGrants_size.
  set (n := length (identityNames (passGrants csv d))).
  assert (length (replicate n zeroRequirementStatus) = n) as Hn
    by apply length_replicate.
  split; [|split].
  - rewrite length_app, Hn, length_map.
    rewrite (Permutation_length (mapRange_perm rt _)), length_map_to_list, runGrants_size.
    fold n. lia.
  - by rewrite take_app_length'.
  - rewrite drop_app_length' by done. apply runGrants_values.
Qed.

Lemma permissionStatus_zero_values_witness :
  let rt := runtimeDecoding (Ok (StrategyDeployment twoIdentities)) in
  UnmarshalStrategy rt (InstallStrategy bareCSV) = Ok (StrategyDeployment twoIdentities)
  /\ length (permissionStatus rt permissiveOperator bareCSV).2 = 4
  /\ take 2 (permissionStatus rt permissiveOperator bareCSV).2
     = [zeroRequirementStatus; zeroRequirementStatus].
Proof.
  intros rt. split; [reflexivity|].
  destruct (permissionStatus_zero_values rt permissiveOperator bareCSV twoIdentities
              eq_refl) as (Hlen & Htake & _).
  split; [exact Hlen|exact Htake].
Defined.

(** A stored status that is NotPresent stays other than Present under one
    more grant to the same identity, though its service account exists and
    its rules are satisfied. *)
Lemma permStep_not_Present_witness :
  let rt := runtimeDecoding (Ok (StrategyDeployment oneIdentity)) in
  let stored := mkRequirementStatus "" "v1" "ServiceAccount" "sa" "NotPresent" "" [] in
  ({["sa" := stored]} : gmap string RequirementStatus) !! "sa" = Some stored
  /\ req_Status stored <> RequirementStatusReasonPresent
  /\ exists st',
       (permStep rt permissiveOperator bareCSV "ns" ({["sa" := stored]}, true)
          (mkPermissions "sa" [getPods])).1 !! "sa" = Some st'
       /\ req_Status st' <> RequirementStatusReasonPresent.
Proof.
  intros rt stored. split; [reflexivity|]. split; [done|].
  apply (permStep_not_Present rt permissiveOperator bareCSV "ns" {["sa" := stored]} true
           (mkPermissions "sa" [getPods]) "sa" stored); [reflexivity|done].
Defined.

(** *** The order of map iteration *)

Lemma runGrants_runtime rt1 rt2 a csv gs acc :
  (forall rule, json_Marshal rt1 rule = json_Marshal rt2 rule) ->
  runGrants rt1 a csv gs acc = runGrants rt2 a csv gs acc.
Proof.
  intros Hjson. unfold runGrants. apply fold_left_pointwise.
  intros [m met] g. unfold permStep.
  destruct (GetServiceAccount a (GetNamespace csv) (ServiceAccountName g.1)) as [sa|e];
    [|done].
  rewrite (fold_left_pointwise (ruleStep rt1 a csv sa g.2) (ruleStep rt2 a csv sa g.2));
    [done|].
  intros [status met'] rule. unfold ruleStep. by rewrite Hjson.
Qed.

(** Two runs of the resolver that differ only in the order in which the map
    of identity statuses is ranged over report the same [met] and the same
    statuses up to their order. *)
Theorem requirementStatus_map_order rt1 rt2 a csv :
  (forall raw, UnmarshalStrategy rt1 raw = UnmarshalStrategy rt2 raw) ->
  (forall rule, json_Marshal rt1 rule = json_Marshal rt2 rule) ->
  (requirementStatus rt1 a csv).1 = (requirementStatus rt2 a csv).1
  /\ (requirementStatus rt1 a csv).2 ≡ₚ (requirementStatus rt2 a csv).2.
Proof.
  intros Hdecode Hjson. rewrite !requirementStatus_eq. simpl.
  assert ((permissionStatus rt1 a csv).1 = (permissionStatus rt2 a csv).1
          /\ (permissionStatus rt1 a csv).2 ≡ₚ (permissionStatus rt2 a csv).2)
    as [Hmet Hstatuses].
  { destruct (UnmarshalStrategy rt1 (InstallStrategy csv)) as [[d|other]|e] eqn:Hd1;
      pose proof Hd1 as Hd2; rewrite Hdecode in Hd2.
    - rewrite (permissionStatus_deployment rt1 a csv d Hd1).
      rewrite (permissionStatus_deployment rt2 a csv d Hd2). simpl.
      rewrite (runGrants_runtime rt1 rt2 a csv _ _ Hjson). split; [done|].
      rewrite !collectStatuses_eq. apply Permutation_app; [done|].
      rewrite (Permutation_map snd (mapRange_perm rt1 _)).
      by rewrite (Permutation_map snd (mapRange_perm rt2 _)).
    - unfold permissionStatus. by rewrite Hd1, Hd2.
    - unfold permissionStatus. by rewrite Hd1, Hd2. }
  split; [by rewrite Hmet|]. by rewrite Hstatuses.
Qed.

Lemma requirementStatus_map_order_witness :
  let rt1 := runtimeDecoding (Ok (StrategyDeployment twoIdentities)) in
  let rt2 := reversedRuntime (Ok (StrategyDeployment twoIdentities)) in
  (forall raw, UnmarshalStrategy rt1 raw = UnmarshalStrategy rt2 raw)
  /\ (forall rule, json_Marshal rt1 rule = json_Marshal rt2 rule)
  /\ map req_Name (requirementStatus rt1 permissiveOperator bareCSV).2 = [""; ""; "a"; "b"]
  /\ map req_Name (requirementStatus rt2 permissiveOperator bareCSV).2 = [""; ""; "b"; "a"]
  /\ (requirementStatus rt1 permissiveOperator bareCSV).1
     = (requirementStatus rt2 permissiveOperator bareCSV).1
  /\ (requirementStatus rt1 permissiveOperator bareCSV).2
     ≡ₚ (requirementStatus rt2 permissiveOperator bareCSV).2.
Proof.
  intros rt1 rt2. split; [done|]. split; [done|].
  split; [reflexivity|]. split; [reflexivity|].
  apply (requirementStatus_map_order rt1 rt2 permissiveOperator bareCSV); done.
Defined.

End OlmExtra.

(* ===================================================================== *)
(** ** Further properties of the package-manifest storage *)
(* ===================================================================== *)

Module PackagemanifestExtra.

Import Packagemanifest PackagemanifestSpec.

Lemma filter_all {A} (P : A -> Prop) `{forall x, Decision (P x)} (l : list A) :
  (forall x, x ∈ l -> P x) -> filter P l = l.
Proof.
  induction l as [|x l IH]; intros Hl; [done|].
  rewrite filter_cons_True by (apply Hl; by left).
  f_equal. apply IH. intros y Hy. apply Hl. by right.
Qed.

Lemma filter_retained_split ls name namespace (items : list PackageManifest) :
  filter (retained ls name namespace) items
  = filter (retained labels_Everything name namespace)
      (filter (retained ls "" namespace) items)
  /\ filter (retained ls name namespace) items
     = filter (retained ls "" namespace)
         (filter (retained labels_Everything name namespace) items).
Proof.
  rewrite !list_filter_filter. split; apply list_filter_iff; intros m;
    unfold retained, labels_Everything; intuition.
Qed.

(** *** [Get] *)

(** [Get] returns the provider's record when there is one, the provider's
    error when it fails, and otherwise a not-found error for the storage's
    group resource and the requested name; it returns a record or an error,
    never both and never neither. *)
Theorem Get_outcomes m ctx name :
  (forall pm,
     Get m ctx name = (Some pm, None)
     <-> prov_Get (prov m) (NamespaceValue ctx) name = Ok (Some pm))
  /\ (prov_Get (prov m) (NamespaceValue ctx) name = Ok None ->
      Get m ctx name = (None, Some (NewNotFound (groupResource m) name)))
  /\ (forall err,
        prov_Get (prov m) (NamespaceValue ctx) name = Err err ->
        Get m ctx name = (None, Some err))
  /\ (forall obj err, Get m ctx name = (obj, err) -> obj = None <-> err <> None).
Proof.
  unfold Get. destruct (prov_Get (prov m) (NamespaceValue ctx) name) as [[pm|]|e];
    (split; [|split; [|split]]); try done.
  - intros pm'. split; by intros [= ->].
  - by intros obj err [= <- <-].
  - by intros obj err [= <- <-].
  - by intros err [= ->].
  - by intros obj err [= <- <-].
Qed.

(** *** [List] without filters, and how its filters compose *)

(** With no namespace in the request, no label selector and a field
    selector that yields no name, [List] returns the provider's collection
    as it is. *)
Theorem List_without_filters m ctx o res :
  NamespaceValue ctx = NamespaceAll ->
  LabelSelector o = None ->
  nameFor (FieldSelector o) = Return (Ok "") ->
  prov_List (prov m) NamespaceAll = Ok (Some res) ->
  List m ctx (Some o) = Return (Some res, None).
Proof.
  intros Hns Hls Hname Hres. unfold List, labelSelectorOf.
  rewrite Hname, Hns, Hres, Hls, fold_matches. simpl.
  rewrite filter_all; [by destruct res|].
  intros x _. unfold retained, labels_Everything. by repeat split; left.
Qed.

Lemma List_without_filters_witness :
  let o := mkListOptions None (Some fields_Everything) "" in
  NamespaceValue (mkContext None) = NamespaceAll
  /\ LabelSelector o = None
  /\ nameFor (FieldSelector o) = Return (Ok "")
  /\ List catalogStorage (mkContext None) (Some o)
     = Return (Some (mkPackageManifestList "42" [etcd; prometheus; vault]), None).
Proof.
  intros o. do 3 (split; [reflexivity|]).
  apply (List_without_filters catalogStorage (mkContext None) o
           (mkPackageManifestList "42" [etcd; prometheus; vault])); reflexivity.
Defined.

(** Filtering by label and filtering by name compose, in either order: when
    [List] is run with one of the two filters and then run again, with the
    other filter, over a provider that serves the first result, it returns
    what [List] returns with both filters at once. *)
Theorem List_filters_compose m ctx ls fs rv byLabel byName :
  List m ctx (Some (mkListOptions (Some ls) None rv)) = Return (Some byLabel, None) ->
  List m ctx (Some (mkListOptions None fs rv)) = Return (Some byName, None) ->
  List (NewStorage (groupResource m)
          (mkProvider (fun _ => Ok (Some byLabel)) (prov_Get (prov m))))
    ctx (Some (mkListOptions None fs rv))
  = List m ctx (Some (mkListOptions (Some ls) fs rv))
  /\ List (NewStorage (groupResource m)
             (mkProvider (fun _ => Ok (Some byName)) (prov_Get (prov m))))
       ctx (Some (mkListOptions (Some ls) None rv))
     = List m ctx (Some (mkListOptions (Some ls) fs rv)).
Proof.
  unfold List, labelSelectorOf. simpl.
  change (nameFor None) with (Return (Ok "") : outcome (result string)).
  destruct (nameFor fs) as [|[name|err]]; [done| |done]. simpl.
  destruct (prov_List (prov m) (NamespaceValue ctx)) as [[res|]|err]; [|done..].
  rewrite !fold_matches. simpl. intros [= <-] [= <-]. simpl.
  destruct (filter_retained_split ls name (NamespaceValue ctx) (Items res)) as [-> <-].
  done.
Qed.

Lemma List_filters_compose_witness :
  let ctx := mkContext None in
  let fs := Some (hasTerm "metadata.name" "etcd") in
  let byLabel := mkPackageManifestList "42" [etcd; vault] in
  let byName := mkPackageManifestList "42" [etcd] in
  List catalogStorage ctx (Some (mkListOptions (Some stable) None "")) = Return (Some byLabel, None)
  /\ List catalogStorage ctx (Some (mkListOptions None fs "")) = Return (Some byName, None)
  /\ List (NewStorage "packagemanifests"
             (mkProvider (fun _ => Ok (Some byLabel)) (fun _ _ => Ok None)))
       ctx (Some (mkListOptions None fs ""))
     = List catalogStorage ctx (Some (mkListOptions (Some stable) fs ""))
  /\ List (NewStorage "packagemanifests"
             (mkProvider (fun _ => Ok (Some byName)) (fun _ _ => Ok None)))
       ctx (Some (mkListOptions (Some stable) None ""))
     = List catalogStorage ctx (Some (mkListOptions (Some stable) fs "")).
Proof.
  intros ctx fs byLabel byName. split; [reflexivity|]. split; [reflexivity|].
  apply (List_filters_compose catalogStorage ctx stable fs "" byLabel byName);
    reflexivity.
Defined.

(** *** The field selector *)

(** Of a field selector that requires an exact match on [metadata.name],
    [List] and [Watch] use the required name and nothing else: every other
    term of the selector is ignored. *)
Theorem exact_name_match_only m ctx ls fs rv value :
  RequiresExactMatch fs "metadata.name" = (value, true) ->
  List m ctx (Some (mkListOptions ls (Some fs) rv))
  = List m ctx (Some (mkListOptions ls (Some (hasTerm "metadata.name" value)) rv))
  /\ Watch m ctx (Some (mkListOptions ls (Some fs) rv))
     = Watch m ctx (Some (mkListOptions ls (Some (hasTerm "metadata.name" value)) rv)).
Proof.
  intros Hfound.
  assert (nameFor (Some fs) = Return (Ok value)) as Hfs by by apply nameFor_found.
  assert (nameFor (Some (hasTerm "metadata.name" value)) = Return (Ok value)) as Hterm.
  { by apply nameFor_found. }
  unfold List, Watch. cbn [FieldSelector]. by rewrite Hfs, Hterm.
Qed.

Lemma exact_name_match_only_witness :
  let fs :=
    andTerm [notHasTerm "spec.channel" "alpha"; hasTerm "metadata.name" "etcd";
             hasTerm "metadata.name" "vault"] in
  RequiresExactMatch fs "metadata.name" = ("etcd", true)
  /\ List catalogStorage (mkContext None) (Some (mkListOptions None (Some fs) ""))
     = Return (Some (mkPackageManifestList "42" [etcd]), None).
Proof.
  intros fs. split; [reflexivity|].
  rewrite (proj1 (exact_name_match_only catalogStorage (mkContext None) None fs ""
                    "etcd" eq_refl)).
  reflexivity.
Defined.

(** [nameFor] panics exactly on a selector that is not empty, requires no
    exact match on [metadata.name] and has no requirement, as
    [fields.Nothing] is: its read of the first requirement is then out of
    range, and [List] and [Watch] panic with it. Otherwise it returns the
    required name, the empty name for an empty selector, or the
    unsupported-field error that names the first requirement. *)
Theorem nameFor_outcomes fs :
  (nameFor fs = Panic
   <-> (RequiresExactMatch (fieldSelectorOf (mkListOptions None fs "")) "metadata.name").2
       = false
       /\ Empty (fieldSelectorOf (mkListOptions None fs "")) = false
       /\ Requirements (fieldSelectorOf (mkListOptions None fs "")) = [])
  /\ (forall name,
        nameFor fs = Return (Ok name)
        <-> RequiresExactMatch (fieldSelectorOf (mkListOptions None fs "")) "metadata.name"
            = (name, true)
            \/ ((RequiresExactMatch (fieldSelectorOf (mkListOptions None fs ""))
                   "metadata.name").2 = false
                /\ Empty (fieldSelectorOf (mkListOptions None fs "")) = true
                /\ name = ""))
  /\ (forall err,
        nameFor fs = Return (Err err)
        <-> (RequiresExactMatch (fieldSelectorOf (mkListOptions None fs ""))
               "metadata.name").2 = false
            /\ Empty (fieldSelectorOf (mkListOptions None fs "")) = false
            /\ exists r rest,
                 Requirements (fieldSelectorOf (mkListOptions None fs "")) = r :: rest
                 /\ err = Errorf ("field label not supported: " +:+ Field r))
  /\ (forall m ctx ls rv,
        List m ctx (Some (mkListOptions ls (Some nothing) rv)) = Panic
        /\ Watch m ctx (Some (mkListOptions ls (Some nothing) rv)) = Panic).
Proof.
  split; [|split; [|split]]; [| | |by split].
  all: unfold nameFor, fieldSelectorOf; simpl;
    destruct (RequiresExactMatch _ "metadata.name") as [value [|]]; simpl.
  - split; [done|]. by intros [? _].
  - destruct (Empty _); simpl; [split; [done|by intros (_ & ? & _)]|].
    destruct (Requirements _) as [|r rest]; [done|].
    split; [done|]. by intros (_ & _ & ?).
  - intros name. split.
    + intros [= <-]. by left.
    + by intros [[= ->]|[? _]].
  - intros name. destruct (Empty _); simpl.
    + split; [intros [= <-]; by right|]. by intros [[= ]|(_ & _ & ->)].
    + destruct (Requirements _) as [|r rest]; (split; [done|]);
        by intros [[= ]|(_ & ? & _)].
  - intros err. split; [done|]. by intros [? _].
  - intros err. destruct (Empty _); simpl; [split; [done|by intros (_ & ? & _)]|].
    destruct (Requirements _) as [|r rest].
    + split; [done|]. by intros (_ & _ & r & rest & ? & _).
    + split.
      * intros [= <-]. repeat split. by exists r, rest.
      * by intros (_ & _ & r' & rest' & [= <- <-] & ->).
Qed.


(** An exact match on the empty name is no name filter at all: [List] and
    [Watch] behave as they do without a field selector. *)
Theorem empty_name_is_no_filter m ctx ls rv :
  List m ctx (Some (mkListOptions ls (Some (hasTerm "metadata.name" "")) rv))
  = List m ctx (Some (mkListOptions ls None rv))
  /\ Watch m ctx (Some (mkListOptions ls (Some (hasTerm "metadata.name" "")) rv))
     = Watch m ctx (Some (mkListOptions ls None rv)).
Proof. split; reflexivity. Qed.

(** [List] and [Watch] refuse the same requests with the same error: one
    returns no object and an error exactly when the other does, and the
    error is that of the field selector. *)
Theorem List_Watch_refuse_alike m ctx o err :
  (List m ctx (Some o) = Return (None, Some err)
   <-> Watch m ctx (Some o) = Return (None, Some err))
  /\ (Watch m ctx (Some o) = Return (None, Some err)
      <-> nameFor (FieldSelector o) = Return (Err err)).
Proof.
  unfold List, Watch.
  destruct (nameFor (FieldSelector o)) as [|[name|e]].
  - by split; split.
  - destruct (prov_List (prov m) (NamespaceValue ctx)) as [[res|]|e]; by split; split.
  - split; split; by intros [= ->].
Qed.

End PackagemanifestExtra.
